(** * server.py: a JSON health-check responder

    The program is one [http.server.BaseHTTPRequestHandler] subclass with
    two methods, [do_GET] and [do_POST], a module-level [PORT] read from
    the environment, and a [socketserver.TCPServer] loop.

    Definitions come first:
    - [Py]: the pieces of the Python runtime the program calls
      ([int], [bytes.decode], [str.encode], [json.dumps]), together with
      a JSON reader used to observe responses;
    - [Http]: the handler base class as a state-and-exception monad over
      one connection (the buffered read of the request body, the
      response calls with their HTTP/0.9 guard), the parsing of the
      request line, and the reply a client reads off a connection;
    - [Server]: the program itself, statement by statement, and the
      routing of a request to its two methods;
    - [Model]: the vocabulary of the statements proved about it.

    Then the proofs: facts about text and JSON ([TextFacts],
    [DumpsFacts], [LoadsFacts], [Utf8Facts]), the handlers run on a
    connection ([HandlerFacts], [ServerFacts], [MoreFacts]), the
    properties of the program ([Claims], [Behaviour]) and the example
    runs ([Scenarios]).

    What is modelled of the machine is a 64-bit CPython; what is left
    out is time: a peer that neither sends nor closes keeps a read
    waiting for ever. *)

From Stdlib Require Import ZArith List Lia Bool.
From Stdlib.Strings Require Import String Ascii Byte.
From Stdlib Require DecimalZ DecimalFacts DecimalPos.
Import ListNotations.
Local Open Scope Z_scope.

(* ================================================================= *)
(** * The Python runtime *)

Module Py.

(** A [str] is a sequence of code points, a [bytes] a sequence of
    octets.  Text that enters the process off the wire (request line,
    header lines) is decoded by the framework as ISO-8859-1, one
    character per octet: such text is given as a Rocq [string] and
    read through [latin1]. *)
Definition str := list Z.
Definition bytes := list byte.

Definition ord (a : ascii) : Z := Z.of_N (N_of_ascii a).

Fixpoint latin1 (s : string) : str :=
  match s with
  | EmptyString => []
  | String a s' => ord a :: latin1 s'
  end.

Definition byte_val (b : byte) : Z := Z.of_N (Byte.to_N b).

Definition byte_of (z : Z) : byte :=
  match Byte.of_N (Z.to_N z) with
  | Some b => b
  | None => x00
  end.

Fixpoint str_eqb (s t : str) : bool :=
  match s, t with
  | [], [] => true
  | c :: s', d :: t' => (c =? d) && str_eqb s' t'
  | _, _ => false
  end.

(** Exceptions the program can meet.  [OSError] stands for what a
    socket raises when the peer is gone, on a write or on a read;
    [OverflowError] is what [bind] raises on a port outside [0..65535]
    and what a read raises on a size that is no machine integer or no
    size of a [bytes]; [MemoryError] is what a read raises when its
    buffer cannot be allocated. *)
Inductive exn : Type :=
| ValueError
| UnicodeDecodeError
| UnicodeEncodeError
| OverflowError
| MemoryError
| OSError.

Definition result (A : Type) : Type := (exn + A)%type.

(** Objects handed to [int(...)]: the program passes either a [str]
    (a header or environment value) or the [int] default. *)
Inductive object : Type :=
| PyStr (s : str)
| PyInt (z : Z).

(* ----------------------------------------------------------------- *)
(** ** [int(str)] *)

(** ASCII white space, as the integer parser skips it. *)
Definition Py_ISSPACE (c : Z) : bool :=
  ((9 <=? c) && (c <=? 13)) || (c =? 32).

Definition Py_UNICODE_ISSPACE (c : Z) : bool :=
  ((9 <=? c) && (c <=? 13)) || ((28 <=? c) && (c <=? 32))
  || (c =? 0x85) || (c =? 0xA0) || (c =? 0x1680)
  || ((0x2000 <=? c) && (c <=? 0x200A))
  || (c =? 0x2028) || (c =? 0x2029) || (c =? 0x202F)
  || (c =? 0x205F) || (c =? 0x3000).

Definition isdigit (c : Z) : bool := (48 <=? c) && (c <=? 57).

(** Before parsing, every character from 127 up is replaced: white
    space by a blank, a decimal digit by its ASCII digit, anything else
    by [?].  The only decimal digits among the Latin-1 characters are
    the ASCII ones, so on Latin-1 text (all that [latin1] produces) the
    digit case never applies above 126 and is left out. *)
Definition to_ascii_decimal_and_space (c : Z) : Z :=
  if c <? 127 then c
  else if Py_UNICODE_ISSPACE c then 32
  else 63.

(** Digits with single underscores between them; [s] must begin with a
    digit.  Returns the value, the number of digits and what follows. *)
Fixpoint scan_digits (acc : Z) (n : nat) (s : str) {struct s}
  : option (Z * nat * str) :=
  match s with
  | [] => None
  | c :: s' =>
    if isdigit c then
      let acc' := 10 * acc + (c - 48) in
      match s' with
      | [] => Some (acc', S n, [])
      | u :: s'' =>
        if u =? 95 (* _ *) then
          match s'' with
          | d :: _ => if isdigit d then scan_digits acc' (S n) s'' else None
          | [] => None
          end
        else if isdigit u then scan_digits acc' (S n) s'
        else Some (acc', S n, s')
      end
    else None
  end.

Fixpoint lstrip (s : str) : str :=
  match s with
  | c :: s' => if Py_ISSPACE c then lstrip s' else s
  | [] => []
  end.

(** The default limit on the number of digits [int] converts
    ([sys.int_max_str_digits]). *)
Definition int_max_str_digits : nat := 4300.

Definition int_of_str (s : str) : result Z :=
  let t := lstrip (map to_ascii_decimal_and_space s) in
  let '(neg, t) :=
    match t with
    | c :: t' =>
      if c =? 43 (* + *) then (false, t')
      else if c =? 45 (* - *) then (true, t')
      else (false, t)
    | [] => (false, [])
    end in
  match scan_digits 0 0 t with
  | Some (v, n, rest) =>
    if forallb Py_ISSPACE rest && (n <=? int_max_str_digits)%nat
    then inr (if neg then - v else v)
    else inl ValueError
  | None => inl ValueError
  end.

Definition int (o : object) : result Z :=
  match o with
  | PyInt z => inr z
  | PyStr s => int_of_str s
  end.

(** Truth values: an [int] is true unless zero, a [str] unless empty. *)
Definition int_truth (z : Z) : bool := negb (z =? 0).

Definition str_truth (s : str) : bool :=
  match s with
  | [] => false
  | _ :: _ => true
  end.

(* ----------------------------------------------------------------- *)
(** ** UTF-8 *)

Definition is_surrogate (c : Z) : bool := (0xD800 <=? c) && (c <=? 0xDFFF).

(** [str.encode()]: UTF-8, strict. *)
Definition utf8_encode_char (c : Z) : result bytes :=
  if c <? 0x80 then inr [byte_of c]
  else if c <? 0x800 then
    inr [byte_of (Z.lor 0xC0 (Z.shiftr c 6));
         byte_of (Z.lor 0x80 (Z.land c 0x3F))]
  else if c <? 0x10000 then
    if is_surrogate c then inl UnicodeEncodeError
    else
      inr [byte_of (Z.lor 0xE0 (Z.shiftr c 12));
           byte_of (Z.lor 0x80 (Z.land (Z.shiftr c 6) 0x3F));
           byte_of (Z.lor 0x80 (Z.land c 0x3F))]
  else
    inr [byte_of (Z.lor 0xF0 (Z.shiftr c 18));
         byte_of (Z.lor 0x80 (Z.land (Z.shiftr c 12) 0x3F));
         byte_of (Z.lor 0x80 (Z.land (Z.shiftr c 6) 0x3F));
         byte_of (Z.lor 0x80 (Z.land c 0x3F))].

Fixpoint encode (s : str) : result bytes :=
  match s with
  | [] => inr []
  | c :: s' =>
    match utf8_encode_char c with
    | inl e => inl e
    | inr bs =>
      match encode s' with
      | inl e => inl e
      | inr bs' => inr (bs ++ bs')
      end
    end
  end.

Definition is_ascii (c : Z) : bool := (0 <=? c) && (c <? 0x80).

Definition is_cont (b : Z) : bool := (0x80 <=? b) && (b <=? 0xBF).

Definition between (lo b hi : Z) : bool := (lo <=? b) && (b <=? hi).

(** [bytes.decode('utf-8')], strict, on octet values: the well-formed
    sequences are those of the Unicode standard (no overlong forms, no
    surrogates, nothing above U+10FFFF). *)
Fixpoint utf8_decode_vals (bs : list Z) {struct bs} : option str :=
  match bs with
  | [] => Some []
  | b0 :: t0 =>
    if b0 <? 0x80 then option_map (cons b0) (utf8_decode_vals t0)
    else if between 0xC2 b0 0xDF then
      match t0 with
      | b1 :: t1 =>
        if is_cont b1 then
          option_map
            (cons (Z.lor (Z.shiftl (Z.land b0 0x1F) 6) (Z.land b1 0x3F)))
            (utf8_decode_vals t1)
        else None
      | _ => None
      end
    else if between 0xE0 b0 0xEF then
      match t0 with
      | b1 :: b2 :: t2 =>
        if between (if b0 =? 0xE0 then 0xA0 else 0x80) b1
                   (if b0 =? 0xED then 0x9F else 0xBF)
           && is_cont b2 then
          option_map
            (cons (Z.lor (Z.shiftl (Z.land b0 0x0F) 12)
                     (Z.lor (Z.shiftl (Z.land b1 0x3F) 6) (Z.land b2 0x3F))))
            (utf8_decode_vals t2)
        else None
      | _ => None
      end
    else if between 0xF0 b0 0xF4 then
      match t0 with
      | b1 :: b2 :: b3 :: t3 =>
        if between (if b0 =? 0xF0 then 0x90 else 0x80) b1
                   (if b0 =? 0xF4 then 0x8F else 0xBF)
           && is_cont b2 && is_cont b3 then
          option_map
            (cons (Z.lor (Z.shiftl (Z.land b0 0x07) 18)
                     (Z.lor (Z.shiftl (Z.land b1 0x3F) 12)
                        (Z.lor (Z.shiftl (Z.land b2 0x3F) 6)
                           (Z.land b3 0x3F)))))
            (utf8_decode_vals t3)
        else None
      | _ => None
      end
    else None
  end.

Definition decode (b : bytes) : result str :=
  match utf8_decode_vals (map byte_val b) with
  | Some s => inr s
  | None => inl UnicodeDecodeError
  end.

(* ----------------------------------------------------------------- *)
(** ** [json.dumps] *)

(** The values the program serialises: a [dict] with [str] keys, in
    insertion order, holding [str], [int] and [bool] values. *)
Inductive value : Type :=
| JStr (s : str)
| JInt (z : Z)
| JBool (b : bool).

Definition dict := list (str * value).

Definition hexdigit (d : Z) : Z := if d <? 10 then 48 + d else 87 + d.

(** ['{0:04x}'.format(n)] for [0 <= n < 0x10000]. *)
Definition hex4 (n : Z) : str :=
  [hexdigit (Z.land (Z.shiftr n 12) 0xF);
   hexdigit (Z.land (Z.shiftr n 8) 0xF);
   hexdigit (Z.land (Z.shiftr n 4) 0xF);
   hexdigit (Z.land n 0xF)].

(** One character under [ensure_ascii=True]: a backslash, a quote and
    everything outside [' '..'~'] are escaped. *)
Definition escape (c : Z) : str :=
  if c =? 92 then [92; 92]            (* backslash *)
  else if c =? 34 then [92; 34]       (* quote *)
  else if c =? 8 then [92; 98]        (* \b *)
  else if c =? 12 then [92; 102]      (* \f *)
  else if c =? 10 then [92; 110]      (* \n *)
  else if c =? 13 then [92; 114]      (* \r *)
  else if c =? 9 then [92; 116]       (* \t *)
  else if between 32 c 126 then [c]
  else if c <? 0x10000 then 92 :: 117 :: hex4 c
  else
    let v := c - 0x10000 in
    let s1 := Z.lor 0xD800 (Z.land (Z.shiftr v 10) 0x3FF) in
    let s2 := Z.lor 0xDC00 (Z.land v 0x3FF) in
    (92 :: 117 :: hex4 s1) ++ (92 :: 117 :: hex4 s2).

Definition encode_basestring_ascii (s : str) : str :=
  34 :: flat_map escape s ++ [34].

Fixpoint uint_digits (u : Decimal.uint) : str :=
  match u with
  | Decimal.Nil => []
  | Decimal.D0 u' => 48 :: uint_digits u'
  | Decimal.D1 u' => 49 :: uint_digits u'
  | Decimal.D2 u' => 50 :: uint_digits u'
  | Decimal.D3 u' => 51 :: uint_digits u'
  | Decimal.D4 u' => 52 :: uint_digits u'
  | Decimal.D5 u' => 53 :: uint_digits u'
  | Decimal.D6 u' => 54 :: uint_digits u'
  | Decimal.D7 u' => 55 :: uint_digits u'
  | Decimal.D8 u' => 56 :: uint_digits u'
  | Decimal.D9 u' => 57 :: uint_digits u'
  end.

(** [repr] of an [int]: its decimal digits, after a minus sign if
    negative. *)
Definition int_repr (z : Z) : str :=
  match Z.to_int z with
  | Decimal.Pos u => uint_digits u
  | Decimal.Neg u => 45 :: uint_digits u
  end.

Definition dumps_value (v : value) : str :=
  match v with
  | JStr s => encode_basestring_ascii s
  | JInt z => int_repr z
  | JBool true => latin1 "true"
  | JBool false => latin1 "false"
  end.

Definition dumps_item (kv : str * value) : str :=
  encode_basestring_ascii (fst kv) ++ [58; 32] ++ dumps_value (snd kv).

(** Items are joined by [", "], key and value by [": "]. *)
Fixpoint dumps_items (items : dict) : str :=
  match items with
  | [] => []
  | kv :: rest =>
    match rest with
    | [] => dumps_item kv
    | _ :: _ => dumps_item kv ++ [44; 32] ++ dumps_items rest
    end
  end.

Definition dumps (d : dict) : str := [123] ++ dumps_items d ++ [125].

(* ----------------------------------------------------------------- *)
(** ** Reading JSON back

    The program never parses JSON; this reader is how a client sees the
    body.  It follows [json.loads] on the documents that flat objects of
    strings, integers and booleans make, and rejects the rest. *)

Definition is_ws (c : Z) : bool :=
  (c =? 32) || (c =? 9) || (c =? 10) || (c =? 13).

Fixpoint skip_ws (s : str) : str :=
  match s with
  | c :: s' => if is_ws c then skip_ws s' else s
  | [] => []
  end.

Definition unhex (c : Z) : option Z :=
  if between 48 c 57 then Some (c - 48)
  else if between 97 c 102 then Some (c - 87)
  else if between 65 c 70 then Some (c - 55)
  else None.

Definition unhex4 (a b c d : Z) : option Z :=
  match unhex a, unhex b, unhex c, unhex d with
  | Some x, Some y, Some z, Some w => Some (((x * 16 + y) * 16 + z) * 16 + w)
  | _, _, _, _ => None
  end.

Definition unescape (e : Z) : option Z :=
  if e =? 34 then Some 34
  else if e =? 92 then Some 92
  else if e =? 47 then Some 47
  else if e =? 98 then Some 8
  else if e =? 102 then Some 12
  else if e =? 110 then Some 10
  else if e =? 114 then Some 13
  else if e =? 116 then Some 9
  else None.

(** The characters of a string literal after its opening quote, up to
    and including the closing one. *)
Fixpoint scanstring (s : str) {struct s} : option (str * str) :=
  match s with
  | [] => None
  | c :: s1 =>
    if c =? 34 then Some ([], s1)
    else if c =? 92 then
      match s1 with
      | [] => None
      | e :: s2 =>
        if e =? 117 (* u *) then
          match s2 with
          | h1 :: h2 :: h3 :: h4 :: s6 =>
            match unhex4 h1 h2 h3 h4 with
            | None => None
            | Some uni =>
              let single :=
                match scanstring s6 with
                | Some (r, rest) => Some (uni :: r, rest)
                | None => None
                end in
              if between 0xD800 uni 0xDBFF then
                match s6 with
                | b :: u :: g1 :: g2 :: g3 :: g4 :: s12 =>
                  if (b =? 92) && (u =? 117) then
                    match unhex4 g1 g2 g3 g4 with
                    | None => None
                    | Some uni2 =>
                      if between 0xDC00 uni2 0xDFFF then
                        match scanstring s12 with
                        | Some (r, rest) =>
                          Some (0x10000
                                + Z.lor (Z.shiftl (uni - 0xD800) 10)
                                        (uni2 - 0xDC00) :: r, rest)
                        | None => None
                        end
                      else single
                    end
                  else single
                | _ => single
                end
              else single
            end
          | _ => None
          end
        else
          match unescape e with
          | None => None
          | Some ch =>
            match scanstring s2 with
            | Some (r, rest) => Some (ch :: r, rest)
            | None => None
            end
          end
      end
    else if c <? 32 then None
    else
      match scanstring s1 with
      | Some (r, rest) => Some (c :: r, rest)
      | None => None
      end
  end.

Fixpoint scan_uint (acc : Z) (s : str) : Z * str :=
  match s with
  | c :: s' => if isdigit c then scan_uint (10 * acc + (c - 48)) s' else (acc, s)
  | [] => (acc, [])
  end.

(** An integer: an optional minus, then [0] or a digit string without a
    leading zero; a fraction or an exponent makes it a float, which this
    reader does not take. *)
Definition scan_number (s : str) : option (Z * str) :=
  let '(neg, t) :=
    match s with
    | c :: t => if c =? 45 then (true, t) else (false, s)
    | [] => (false, [])
    end in
  let r :=
    match t with
    | c :: t' =>
      if c =? 48 then Some (0, t')
      else if isdigit c then Some (scan_uint 0 t)
      else None
    | [] => None
    end in
  match r with
  | Some (v, rest) =>
    match rest with
    | c :: _ =>
      if (c =? 46) || (c =? 101) || (c =? 69) then None
      else Some (if neg then - v else v, rest)
    | [] => Some (if neg then - v else v, rest)
    end
  | None => None
  end.

Fixpoint expect (lit s : str) : option str :=
  match lit, s with
  | [], _ => Some s
  | c :: lit', d :: s' => if c =? d then expect lit' s' else None
  | _ :: _, [] => None
  end.

Definition scan_value (s : str) : option (value * str) :=
  match s with
  | [] => None
  | c :: s' =>
    if c =? 34 then
      match scanstring s' with
      | Some (r, rest) => Some (JStr r, rest)
      | None => None
      end
    else if c =? 116 then option_map (pair (JBool true)) (expect (latin1 "rue") s')
    else if c =? 102 then option_map (pair (JBool false)) (expect (latin1 "alse") s')
    else
      match scan_number s with
      | Some (z, rest) => Some (JInt z, rest)
      | None => None
      end
  end.

(** The members of an object, from the opening quote of the first key
    to the closing brace; [fuel] bounds the number of members. *)
Fixpoint scan_members (fuel : nat) (s : str) : option (dict * str) :=
  match fuel with
  | O => None
  | S fuel' =>
    match s with
    | [] => None
    | q :: s1 =>
      if q =? 34 then
        match scanstring s1 with
        | None => None
        | Some (k, s2) =>
          match skip_ws s2 with
          | [] => None
          | colon :: s3 =>
            if colon =? 58 then
              match scan_value (skip_ws s3) with
              | None => None
              | Some (v, s4) =>
                match skip_ws s4 with
                | [] => None
                | sep :: s5 =>
                  if sep =? 125 (* closing brace *) then Some ([(k, v)], s5)
                  else if sep =? 44 (* comma *) then
                    match scan_members fuel' (skip_ws s5) with
                    | Some (items, rest) => Some ((k, v) :: items, rest)
                    | None => None
                    end
                  else None
                end
              end
            else None
          end
        end
      else None
    end
  end.

(** A whole document: one object, white space around it. *)
Definition loads (s : str) : option dict :=
  match skip_ws s with
  | [] => None
  | c :: s1 =>
    if c =? 123 (* opening brace *) then
      match skip_ws s1 with
      | [] => None
      | d :: s2 =>
        if d =? 125 then
          match skip_ws s2 with [] => Some [] | _ :: _ => None end
        else
          match scan_members (List.length s) (skip_ws s1) with
          | Some (items, rest) =>
            match skip_ws rest with [] => Some items | _ :: _ => None end
          | None => None
          end
      end
    else None
  end.

(** Field access on a decoded object: as in a Python [dict] built from
    the pairs, the last binding of a key is the one seen. *)
Fixpoint get (k : str) (d : dict) : option value :=
  match d with
  | [] => None
  | (k', v) :: d' =>
    match get k d' with
    | Some v' => Some v'
    | None => if str_eqb k k' then Some v else None
    end
  end.

(** Code points that come back from [loads] as [dumps] took them: all
    but the leading surrogates, which a reader joins with a trailing
    surrogate that follows. *)
Definition plain_char (c : Z) : bool :=
  between 0 c 0x10FFFF && negb (between 0xD800 c 0xDBFF).

Definition plain_value (v : value) : bool :=
  match v with
  | JStr s => forallb plain_char s
  | _ => true
  end.

Definition plain_dict (d : dict) : bool :=
  forallb (fun kv => forallb plain_char (fst kv) && plain_value (snd kv)) d.

End Py.

(* ================================================================= *)
(** * The request handler base class *)

Module Http.
Import Py.

(** What happens on a connection, in order.  [Read n d]:
    [rfile.read(n)] was called and returned [d].  The other events
    are what the base class makes of the handler's calls for the
    client: [SendResponse] a status line put into the header buffer,
    [SendHeader] a header line put there, [EndHeaders] the buffer
    written out with the blank line that ends it, [Write] octets
    written to the socket.  The text of the status line and the Server
    and Date headers the base class adds by itself are not part of the
    model, nor is the line it logs on [stderr]. *)
Inductive event : Type :=
| Read (size : Z) (data : bytes)
| SendResponse (code : Z)
| SendHeader (keyword value : str)
| EndHeaders
| Write (data : bytes).

(** The request as the framework has parsed it before it calls
    [do_GET] or [do_POST]: [path] is [self.path], what [parse_request]
    made of the request target; [headers] is [self.headers], the
    header lines in order; [request_version] is
    [self.request_version], the version word of the request line, or
    [HTTP/0.9] when the line has none.  All are text decoded as
    ISO-8859-1. *)
Record request : Type := {
  path : string;
  headers : list (string * string);
  request_version : string;
}.

(** One connection.  [rfile] holds the octets the client sends after
    the header block, up to where its side of the connection ends;
    [rfile_broken] tells how it ends: in order (end of file) or by an
    error (the peer resets the connection).  [memory] is the size of
    the largest [bytes] the process can allocate when the handler
    runs.  [wfile_left] is how many more writes the peer accepts
    ([None]: it never stops); [trace] is what has happened so far,
    oldest first.  A peer that neither sends nor ends keeps a read
    waiting for ever; such runs have no outcome and no place here. *)
Record connection : Type := {
  rfile : bytes;
  rfile_broken : bool;
  memory : Z;
  wfile_left : option nat;
  trace : list event;
}.

(** A connection just accepted: nothing has happened on it yet. *)
Definition fresh (input : bytes) (broken : bool) (mem : Z)
                 (budget : option nat) : connection :=
  {| rfile := input; rfile_broken := broken; memory := mem;
     wfile_left := budget; trace := [] |}.

(** The peer takes at least [n] more writes. *)
Definition accepts (n : nat) (budget : option nat) : Prop :=
  match budget with
  | None => True
  | Some k => (n <= k)%nat
  end.

Definition M (A : Type) : Type := connection -> result A * connection.

Definition ret {A} (a : A) : M A := fun c => (inr a, c).

Definition raise {A} (e : exn) : M A := fun c => (inl e, c).

Definition bind {A B} (m : M A) (k : A -> M B) : M B :=
  fun c =>
    match m c with
    | (inr a, c') => k a c'
    | (inl e, c') => (inl e, c')
    end.

Definition lift {A} (r : result A) : M A :=
  match r with
  | inr a => ret a
  | inl e => raise e
  end.

Notation "x <- m ;; k" := (bind m (fun x => k))
  (at level 61, m at next level, right associativity).
Notation "m ;; k" := (bind m (fun _ => k))
  (at level 61, right associativity).

Definition log (e : event) : M unit :=
  fun c => (inr tt, {| rfile := rfile c; rfile_broken := rfile_broken c;
                       memory := memory c; wfile_left := wfile_left c;
                       trace := trace c ++ [e] |}).

(** *** Reading the request body *)

(** The bounds of a machine integer ([Py_ssize_t], on a 64-bit build)
    and the largest size of a [bytes] object, whose header takes 33
    octets of the address space. *)
Definition PY_SSIZE_T_MAX : Z := 9223372036854775807.
Definition PY_SSIZE_T_MIN : Z := -9223372036854775808.
Definition bytes_max : Z := PY_SSIZE_T_MAX - 33.

(** The stream after a read that met the error at its end: what was
    there is lost to the handler. *)
Definition drained (c : connection) : connection :=
  {| rfile := []; rfile_broken := rfile_broken c; memory := memory c;
     wfile_left := wfile_left c; trace := trace c |}.

(** [self.rfile.read(size)] on the buffered reader.  A size that is
    no machine integer raises [OverflowError]; a negative size other
    than [-1] raises [ValueError]; [-1] reads to the end of the stream.
    Otherwise a buffer of [size] octets is allocated before anything
    is read, which raises [OverflowError] when no [bytes] can be that
    large and [MemoryError] when the process has no room for it; then
    [size] octets are read, fewer only when the stream ends first.  A
    read that meets the end of a stream ended by an error raises
    [OSError]. *)
Definition rfile_read (size : Z) : M bytes :=
  fun c =>
    if (size <? PY_SSIZE_T_MIN) || (PY_SSIZE_T_MAX <? size)
    then (inl OverflowError, c)
    else if size <? -1 then (inl ValueError, c)
    else if size =? -1 then
      if rfile_broken c then (inl OSError, drained c)
      else
        (inr (rfile c),
         {| rfile := []; rfile_broken := rfile_broken c;
            memory := memory c; wfile_left := wfile_left c;
            trace := trace c ++ [Read size (rfile c)] |})
    else if bytes_max <? size then (inl OverflowError, c)
    else if memory c <? size then (inl MemoryError, c)
    else if (Z.of_nat (List.length (rfile c)) <? size) && rfile_broken c
    then (inl OSError, drained c)
    else
      let data := firstn (Z.to_nat size) (rfile c) in
      (inr data,
       {| rfile := skipn (Z.to_nat size) (rfile c);
          rfile_broken := rfile_broken c; memory := memory c;
          wfile_left := wfile_left c;
          trace := trace c ++ [Read size data] |}).

(** *** Writing the response *)

(** A write to the socket: it fails once the peer is gone. *)
Definition socket_write (e : event) : M unit :=
  fun c =>
    match wfile_left c with
    | Some O => (inl OSError, c)
    | budget =>
      (inr tt, {| rfile := rfile c; rfile_broken := rfile_broken c;
                  memory := memory c;
                  wfile_left := option_map Nat.pred budget;
                  trace := trace c ++ [e] |})
    end.

(** [self.request_version == 'HTTP/0.9']: the request asks for a
    response without status line and headers. *)
Definition simple (self : request) : bool :=
  String.eqb (request_version self) "HTTP/0.9".

(** [send_response] and [send_header] fill the header buffer and
    [end_headers] writes it out, all three only when the request
    version is not [HTTP/0.9]; [wfile.write] writes through. *)
Definition send_response (self : request) (code : Z) : M unit :=
  if simple self then ret tt else log (SendResponse code).

Definition send_header (self : request) (keyword value : str) : M unit :=
  if simple self then ret tt else log (SendHeader keyword value).

Definition end_headers (self : request) : M unit :=
  if simple self then ret tt else socket_write EndHeaders.

Definition wfile_write (data : bytes) : M unit := socket_write (Write data).

(** *** The request headers *)

(** [str.lower()] on Latin-1 text. *)
Definition lower_char (c : Z) : Z :=
  if between 65 c 90 || (between 0xC0 c 0xDE && negb (c =? 0xD7))
  then c + 32 else c.

Definition lower (s : str) : str := map lower_char s.

(** Lookup of a header by name, whatever its letter case; the first
    line with that name answers. *)
Fixpoint lookup_header (name : str) (hs : list (str * str)) : option str :=
  match hs with
  | [] => None
  | (k, v) :: hs' =>
    if str_eqb (lower k) (lower name) then Some v else lookup_header name hs'
  end.

Definition header_of (self : request) (name : string) : option str :=
  lookup_header (latin1 name)
    (map (fun kv => (latin1 (fst kv), latin1 (snd kv))) (headers self)).

(** [self.headers.get(name, default)]. *)
Definition headers_get (self : request) (name : string) (default : object)
  : object :=
  match header_of self name with
  | Some v => PyStr v
  | None => default
  end.

(** *** The request line *)

(** White space as [str.split] sees it, on a Latin-1 character. *)
Definition isspace (a : ascii) : bool := Py_UNICODE_ISSPACE (ord a).

(** [s.split()]: the runs of characters between white space;
    [word] is the run being read. *)
Fixpoint split_from (word : string) (s : string) : list string :=
  match s with
  | EmptyString =>
    match word with
    | EmptyString => []
    | _ => [word]
    end
  | String a s' =>
    if isspace a then
      match word with
      | EmptyString => split_from EmptyString s'
      | _ => word :: split_from EmptyString s'
      end
    else split_from (word ++ String a EmptyString) s'
  end.

Definition split (s : string) : list string := split_from EmptyString s.

(** [s.rstrip('\r\n')] *)
Fixpoint rstrip (s : string) : string :=
  match s with
  | EmptyString => EmptyString
  | String a s' =>
    match rstrip s' with
    | EmptyString =>
      if Ascii.eqb a "013"%char || Ascii.eqb a "010"%char then EmptyString
      else String a EmptyString
    | t => String a t
    end
  end.

(** [s.lstrip('/')] *)
Fixpoint lstrip_slashes (s : string) : string :=
  match s with
  | String a s' => if Ascii.eqb a "/"%char then lstrip_slashes s' else s
  | EmptyString => EmptyString
  end.

(** [s.split(sep, 1)[1]]: what follows the first [sep]; there is no
    such item when [s] holds no [sep]. *)
Fixpoint after (sep : ascii) (s : string) : option string :=
  match s with
  | EmptyString => None
  | String a s' => if Ascii.eqb a sep then Some s' else after sep s'
  end.

(** [s.split(sep)] *)
Fixpoint split_at (sep : ascii) (s : string) : list string :=
  match s with
  | EmptyString => [EmptyString]
  | String a s' =>
    if Ascii.eqb a sep then EmptyString :: split_at sep s'
    else
      match split_at sep s' with
      | w :: ws => String a w :: ws
      | [] => [String a EmptyString]
      end
  end.

(** The [try] block of [parse_request]: the two numbers of a version
    word [HTTP/major.minor], or nothing where the block raises. *)
Definition version_number (version : string) : option (Z * Z) :=
  if String.prefix "HTTP/" version then
    match after "/"%char version with
    | Some base_version_number =>
      match split_at "."%char base_version_number with
      | [major; minor] =>
        match int_of_str (latin1 major), int_of_str (latin1 minor) with
        | inr a, inr b => Some (a, b)
        | _, _ => None
        end
      | _ => None
      end
    | None => None
    end
  else None.

(** [v >= w] on pairs of integers. *)
Definition tuple_ge (v w : Z * Z) : bool :=
  (fst w <? fst v) || ((fst v =? fst w) && (snd w <=? snd v)).

Definition default_request_version : string := "HTTP/0.9".

(** How [parse_request] ends: it returns [True], with the command and
    the request it has filled in; it sends an error response with a
    status code and returns [False]; or it returns [False] without a
    word to the client. *)
Inductive parse_result : Type :=
| Accepted (command : string) (self : request)
| SendError (code : Z)
| NoRequest.

(** [parse_request], on the request line as read off the connection
    and the header lines as parsed after it.  What an error response
    looks like on the wire is not modelled, nor are the two ways the
    reading of the header block itself can be refused (a line or a
    block too long). *)
Definition parse_request (raw_requestline : string)
                         (hs : list (string * string)) : parse_result :=
  let requestline := rstrip raw_requestline in
  let words := split requestline in
  match words with
  | [] => NoRequest
  | _ :: _ =>
    let checked : Z + string :=
      if (3 <=? List.length words)%nat then
        let version := last words EmptyString in
        match version_number version with
        | None => inl 400
        | Some number =>
          if tuple_ge number (2, 0) then inl 505 else inr version
        end
      else inr default_request_version in
    match checked with
    | inl code => SendError code
    | inr version =>
      match words with
      | [command; target] =>
        if String.eqb command "GET"
        then Accepted command
               {| path := if String.prefix "//" target
                          then String "/"%char (lstrip_slashes target)
                          else target;
                  headers := hs;
                  request_version := version |}
        else SendError 400
      | [command; target; _] =>
        Accepted command
          {| path := if String.prefix "//" target
                     then String "/"%char (lstrip_slashes target)
                     else target;
             headers := hs;
             request_version := version |}
      | _ => SendError 400
      end
    end
  end.

(** *** What the client sees *)

(** A response as the client reads it: the status of its status line,
    if it has one, the headers the handler set, the body. *)
Record response : Type := {
  status : option Z;
  response_headers : list (str * str);
  body : bytes;
}.

Definition is_output (e : event) : bool :=
  match e with
  | Read _ _ => false
  | _ => true
  end.

Fixpoint header_block (tr : list event)
  : option (list (str * str) * list event) :=
  match tr with
  | SendHeader k v :: tr' =>
    match header_block tr' with
    | Some (hs, rest) => Some ((k, v) :: hs, rest)
    | None => None
    end
  | EndHeaders :: tr' => Some ([], tr')
  | _ => None
  end.

Fixpoint written (tr : list event) : option bytes :=
  match tr with
  | [] => Some []
  | Write d :: tr' => option_map (app d) (written tr')
  | _ => None
  end.

(** What reached the client.  A full response: a status line, headers,
    the end of the header block, then the body.  A simple response,
    the answer to an HTTP/0.9 request: the body and nothing else. *)
Definition response_of (tr : list event) : option response :=
  match filter is_output tr with
  | SendResponse code :: tr1 =>
    match header_block tr1 with
    | Some (hs, tr2) =>
      match written tr2 with
      | Some b =>
        Some {| status := Some code; response_headers := hs; body := b |}
      | None => None
      end
    | None => None
    end
  | Write d :: tr1 =>
    match written tr1 with
    | Some b =>
      Some {| status := None; response_headers := []; body := d ++ b |}
    | None => None
    end
  | _ => None
  end.

Definition header (r : response) (name : string) : option str :=
  lookup_header (latin1 name) (response_headers r).

(** The body as a client decodes it: UTF-8 text holding one JSON
    object. *)
Definition json (r : response) : option dict :=
  match decode (body r) with
  | inr text => loads text
  | inl _ => None
  end.

Definition field (r : response) (name : string) : option value :=
  match json r with
  | Some d => get (latin1 name) d
  | None => None
  end.

Definition status_codes (tr : list event) : list Z :=
  flat_map (fun e => match e with SendResponse c => [c] | _ => [] end) tr.

Definition reads (tr : list event) : list (Z * bytes) :=
  flat_map (fun e => match e with Read n d => [(n, d)] | _ => [] end) tr.

End Http.

(* ================================================================= *)
(** * The program *)

Module Server.
Import Py Http.

(** The environment of the process: its bindings in order, the first
    of a name being the one [os.environ] holds; the values are taken to
    be Latin-1 text. *)
Definition environ : Type := list (string * string).

(** [os.environ.get(name, default)]. *)

Fixpoint environ_get (env : environ) (name : string) (default : object)
  : object :=
  match env with
  | [] => default
  | (k, v) :: env' =>
    if String.eqb k name then PyStr (latin1 v) else environ_get env' name default
  end.

(** [PORT = int(os.environ.get("PORT", 8080))] *)
Definition PORT_of (env : environ) : result Z :=
  int (environ_get env "PORT" (PyInt 8080)).

(** [HOST = "0.0.0.0"] *)
Definition HOST : str := latin1 "0.0.0.0".

Section Handler.

(** The module global, bound once before the handlers exist; nothing in
    the program assigns it again. *)
Variable PORT : Z.

Definition do_GET (self : request) : M unit :=
  send_response self 200 ;;
  send_header self (latin1 "Content-type") (latin1 "application/json") ;;
  end_headers self ;;
  data <- lift (encode (dumps
    [ (latin1 "status", JStr (latin1 "healthy"));
      (latin1 "port", JInt PORT);
      (latin1 "method", JStr (latin1 "GET"));
      (latin1 "path", JStr (latin1 (path self))) ])) ;;
  wfile_write data.

Definition do_POST (self : request) : M unit :=
  content_length <- lift (int (headers_get self "Content-Length" (PyInt 0))) ;;
  body <- (if int_truth content_length
           then data <- rfile_read content_length ;; lift (decode data)
           else ret []) ;;
  send_response self 200 ;;
  send_header self (latin1 "Content-type") (latin1 "application/json") ;;
  end_headers self ;;
  data <- lift (encode (dumps
    [ (latin1 "status", JStr (latin1 "healthy"));
      (latin1 "port", JInt PORT);
      (latin1 "method", JStr (latin1 "POST"));
      (latin1 "path", JStr (latin1 (path self)));
      (latin1 "body_received",
       JBool (if str_truth body then true else false)) ])) ;;
  wfile_write data.

(** The methods the class defines. *)
Inductive command : Type := GET | POST.

Definition handle (cmd : command) (self : request) : M unit :=
  match cmd with
  | GET => do_GET self
  | POST => do_POST self
  end.

(** [serve_forever]: one handler object per accepted connection, on
    streams of its own; an exception in a handler is reported and ends
    that connection only.  An incoming connection is the request the
    framework hands to a method, with what the client sends after it,
    how its stream ends, the memory there is at that time and how long
    the client keeps reading. *)
Record incoming : Type := {
  method : command;
  parsed : request;
  input : bytes;
  broken : bool;
  room : Z;
  patience : option nat;
}.

Definition serve_one (i : incoming) : result unit * connection :=
  handle (method i) (parsed i)
    (fresh (input i) (broken i) (room i) (patience i)).

Fixpoint serve_forever (conns : list incoming)
  : list (result unit * connection) :=
  match conns with
  | [] => []
  | i :: rest => serve_one i :: serve_forever rest
  end.

End Handler.

(** Where [handle_one_request] takes a request: to one of the two
    methods, with the request as parsed; to an error response of the
    framework's own; or nowhere. *)
Inductive routed : Type :=
| Call (cmd : command) (self : request)
| Refuse (code : Z)
| Silent.

(** [handle_one_request], up to the call of the method: the request
    line is the first line read off the connection, at most 65537
    octets of it; [hs] are the header lines that follow.  The class
    has the attributes [do_GET] and [do_POST] and no other whose name
    begins with [do_]. *)
Definition handle_one_request (raw_requestline : string)
                              (hs : list (string * string)) : routed :=
  if 65536 <? Z.of_nat (String.length raw_requestline) then Refuse 414
  else
    match raw_requestline with
    | EmptyString => Silent
    | _ =>
      match parse_request raw_requestline hs with
      | Accepted command self =>
        if String.eqb command "GET" then Call GET self
        else if String.eqb command "POST" then Call POST self
        else Refuse 501
      | SendError code => Refuse code
      | NoRequest => Silent
      end
    end.

(** What the operating system decides at [bind]: whether a port can
    be listened on, and which port it hands out when asked for port 0. *)
Record system : Type := {
  port_free : Z -> bool;
  ephemeral : Z;
}.

(** One run of the module body: what was printed, the port the socket
    listens on, and either the exception that ended the run or what
    became of the connections served. *)
Record run : Type := {
  stdout : list str;
  listening : option Z;
  served : result (list (result unit * connection));
}.

(** The module body: bind [PORT], print the start line, create the
    server on [(HOST, PORT)], serve. *)
Definition main (env : environ) (os : system) (conns : list incoming) : run :=
  match PORT_of env with
  | inl e => {| stdout := []; listening := None; served := inl e |}
  | inr PORT =>
    let line := latin1 "Starting server on " ++ HOST ++ [58] ++ int_repr PORT in
    if negb (between 0 PORT 65535) then
      {| stdout := [line]; listening := None; served := inl OverflowError |}
    else if negb (port_free os PORT) then
      {| stdout := [line]; listening := None; served := inl OSError |}
    else
      {| stdout := [line];
         listening := Some (if PORT =? 0 then ephemeral os else PORT);
         served := inr (serve_forever PORT conns) |}
  end.

End Server.

(* ================================================================= *)
(** * Vocabulary of the statements *)

Module Model.
Import Py Http Server.

(** The dictionaries the two handlers serialise. *)
Definition get_dict (PORT : Z) (self : request) : dict :=
  [ (latin1 "status", JStr (latin1 "healthy"));
    (latin1 "port", JInt PORT);
    (latin1 "method", JStr (latin1 "GET"));
    (latin1 "path", JStr (latin1 (path self))) ].

Definition post_dict (PORT : Z) (self : request) (received : bool) : dict :=
  [ (latin1 "status", JStr (latin1 "healthy"));
    (latin1 "port", JInt PORT);
    (latin1 "method", JStr (latin1 "POST"));
    (latin1 "path", JStr (latin1 (path self)));
    (latin1 "body_received", JBool received) ].

Definition content_type_json : event :=
  SendHeader (latin1 "Content-type") (latin1 "application/json").

(** The five statements both handlers end with. *)
Definition respond (self : request) (d : dict) : M unit :=
  send_response self 200 ;;
  send_header self (latin1 "Content-type") (latin1 "application/json") ;;
  end_headers self ;;
  data <- lift (encode (dumps d)) ;;
  wfile_write data.

(** How those statements can end, by the kind of response asked for
    and by how long the peer keeps reading: [responded s d pre budget
    res tr] when, for a request that is simple or not as [s] says,
    started after the events [pre] with [budget] writes left, they
    return [res] and leave the trace [tr]. *)
Inductive responded (s : bool) (d : dict) (pre : list event)
  : option nat -> result unit -> list event -> Prop :=
| Unflushed :
    s = false ->
    responded s d pre (Some 0%nat) (inl OSError)
      (pre ++ [SendResponse 200; content_type_json])
| HeadersOnly :
    s = false ->
    responded s d pre (Some 1%nat) (inl OSError)
      (pre ++ [SendResponse 200; content_type_json; EndHeaders])
| Complete budget :
    s = false ->
    accepts 2 budget ->
    responded s d pre budget (inr tt)
      (pre ++ [SendResponse 200; content_type_json; EndHeaders;
               Write (map byte_of (dumps d))])
| Unsent :
    s = true ->
    responded s d pre (Some 0%nat) (inl OSError) pre
| BodyOnly budget :
    s = true ->
    accepts 1 budget ->
    responded s d pre budget (inr tt)
      (pre ++ [Write (map byte_of (dumps d))]).

(** Every way a handler run can end. *)
Inductive handled (PORT : Z) (self : request) (budget : option nat)
  : command -> result unit -> list event -> Prop :=
| GetResponds res tr :
    responded (simple self) (get_dict PORT self) [] budget res tr ->
    handled PORT self budget GET res tr
| PostRefused e pre :
    filter is_output pre = [] ->
    handled PORT self budget POST (inl e) pre
| PostResponds received pre res tr :
    filter is_output pre = [] ->
    responded (simple self) (post_dict PORT self received) pre budget res tr ->
    handled PORT self budget POST res tr.




(** The reply a client reads off the connection once the handler is
    done with it. *)
Definition reply (out : result unit * connection) : option response :=
  response_of (trace (snd out)).

(** A double quote stands for itself in JSON text; in the examples a
    single quote is written for it. *)
Definition quoted (s : string) : str :=
  map (fun c => if c =? 39 then 34 else c) (latin1 s).

(** The requests of the examples. *)
Definition root : request :=
  {| path := "/"; headers := []; request_version := "HTTP/1.1" |}.

Definition submit (length : string) : request :=
  {| path := "/submit"; headers := [("Content-Length"%string, length)];
     request_version := "HTTP/1.1" |}.

Definition hello : bytes := [x68; x65; x6c; x6c; x6f].

(** A request line as it is read off the connection: the text, then
    carriage return and line feed. *)
Definition line (text : string) : string :=
  text ++ String "013"%char (String "010"%char EmptyString).


(** The printable ASCII characters, blank to tilde. *)
Definition printable (c : Z) : bool := between 32 c 126.

(** *** Used in proofs only *)

Definition cons_result (c : Z) (r : option (str * str)) : option (str * str) :=
  match r with
  | Some (s, rest) => Some (c :: s, rest)
  | None => None
  end.

(** The value of a digit string read from the left. *)
Fixpoint horner (acc : Z) (u : Decimal.uint) : Z :=
  match u with
  | Decimal.Nil => acc
  | Decimal.D0 u' => horner (10 * acc) u'
  | Decimal.D1 u' => horner (10 * acc + 1) u'
  | Decimal.D2 u' => horner (10 * acc + 2) u'
  | Decimal.D3 u' => horner (10 * acc + 3) u'
  | Decimal.D4 u' => horner (10 * acc + 4) u'
  | Decimal.D5 u' => horner (10 * acc + 5) u'
  | Decimal.D6 u' => horner (10 * acc + 6) u'
  | Decimal.D7 u' => horner (10 * acc + 7) u'
  | Decimal.D8 u' => horner (10 * acc + 8) u'
  | Decimal.D9 u' => horner (10 * acc + 9) u'
  end.

(** A digit string that starts with a digit other than zero. *)
Definition leading (u : Decimal.uint) : bool :=
  match u with
  | Decimal.Nil | Decimal.D0 _ => false
  | _ => true
  end.

(** What may follow an integer literal: anything but a digit, a
    fraction or an exponent. *)
Definition ends_number (tail : str) : bool :=
  match tail with
  | [] => true
  | c :: _ => negb (isdigit c || (c =? 46) || (c =? 101) || (c =? 69))
  end.

End Model.

(* ================================================================= *)
(** * Proof steps used throughout *)

(** Boolean comparisons in the hypotheses, as propositions. *)
Ltac bools :=
  repeat match goal with
  | H : _ && _ = true |- _ => apply andb_prop in H; destruct H
  | H : _ || _ = false |- _ => apply orb_false_elim in H; destruct H
  | H : negb _ = true |- _ => apply negb_true_iff in H
  | H : negb _ = false |- _ => apply negb_false_iff in H
  | H : (_ <=? _) = true |- _ => apply Z.leb_le in H
  | H : (_ <=? _) = false |- _ => apply Z.leb_gt in H
  | H : (_ <? _) = true |- _ => apply Z.ltb_lt in H
  | H : (_ <? _) = false |- _ => apply Z.ltb_ge in H
  | H : (_ =? _) = true |- _ => apply Z.eqb_eq in H
  | H : (_ =? _) = false |- _ => apply Z.eqb_neq in H
  end.

(** Case analysis on every comparison of the goal, the impossible
    cases closed by arithmetic. *)
Ltac zcase :=
  repeat (match goal with
  | |- context [?a <=? ?b] =>
    let E := fresh "E" in
    destruct (a <=? b) eqn:E; bools; try lia; try (exfalso; lia)
  | |- context [?a <? ?b] =>
    let E := fresh "E" in
    destruct (a <? b) eqn:E; bools; try lia; try (exfalso; lia)
  | |- context [?a =? ?b] =>
    let E := fresh "E" in
    destruct (a =? b) eqn:E; bools; try lia; try (exfalso; lia)
  end; cbn [andb orb negb]).

(** Case analysis on the outermost conditional of the goal. *)
Ltac split_if :=
  match goal with
  | |- context [if ?b then _ else _] =>
    let E := fresh "E" in destruct b eqn:E
  end.

(** One step of [scanstring] on an input that starts with known
    characters. *)
Ltac scan_step :=
  cbn -[Py.unhex4 Py.between Z.add Z.sub Z.lor Z.shiftl Z.mul].



(* ================================================================= *)
(** * Text and octets *)

Module TextFacts.
Import Py Model.

Lemma ord_range a : 0 <= ord a < 256.
Proof.
  unfold ord. pose proof (N_ascii_bounded a) as H. lia.
Qed.


Lemma byte_val_of z : 0 <= z < 256 -> byte_val (byte_of z) = z.
Proof.
  intros Hz. unfold byte_val, byte_of.
  destruct (Byte.of_N (Z.to_N z)) as [b|] eqn:E.
  - apply Byte.to_of_N in E. lia.
  - apply Byte.of_N_None_iff in E. lia.
Qed.

Lemma forallb_impl {A} (p q : A -> bool) l :
  (forall x, p x = true -> q x = true) ->
  forallb p l = true -> forallb q l = true.
Proof.
  intros Hpq. induction l as [|x l IH]; simpl; [auto|].
  intros H. apply andb_prop in H. destruct H as [Hx Hl].
  now rewrite (Hpq _ Hx), (IH Hl).
Qed.

(** ASCII text encodes octet for octet, and cannot fail to. *)
Lemma encode_ascii s :
  forallb is_ascii s = true -> encode s = inr (map byte_of s).
Proof.
  induction s as [|c s IH]; simpl; intros H; [reflexivity|].
  apply andb_prop in H. destruct H as [Hc Hs].
  unfold is_ascii in Hc. bools.
  unfold utf8_encode_char.
  destruct (c <? 128) eqn:E; [|bools; lia].
  rewrite (IH Hs). reflexivity.
Qed.

Lemma utf8_decode_ascii s :
  forallb is_ascii s = true ->
  utf8_decode_vals (map byte_val (map byte_of s)) = Some s.
Proof.
  induction s as [|c s IH]; simpl; intros H; [reflexivity|].
  apply andb_prop in H. destruct H as [Hc Hs].
  unfold is_ascii in Hc. bools.
  rewrite byte_val_of by lia.
  destruct (c <? 128) eqn:E; [|bools; lia].
  rewrite (IH Hs). reflexivity.
Qed.

Lemma latin1_plain s : forallb plain_char (latin1 s) = true.
Proof.
  induction s as [|a s IH]; [reflexivity|].
  cbn [latin1 forallb]. rewrite IH, andb_true_r.
  pose proof (ord_range a) as H. unfold plain_char, between.
  zcase; reflexivity.
Qed.

End TextFacts.

(* ================================================================= *)
(** * [dumps] writes ASCII *)

Module DumpsFacts.
Import Py Model TextFacts.

Lemma lor_add_low a b k :
  0 <= k -> 0 <= b < 2 ^ k -> Z.lor (Z.shiftl a k) b = a * 2 ^ k + b.
Proof.
  intros Hk Hb.
  rewrite <- Z.shiftl_mul_pow2 by lia.
  rewrite <- Z.add_lor_land.
  replace (Z.land (Z.shiftl a k) b) with 0; [lia|].
  symmetry. apply Z.bits_inj'. intros n Hn.
  rewrite Z.land_spec, Z.bits_0.
  destruct (Z.lt_ge_cases n k) as [Hlt|Hge].
  - rewrite Z.shiftl_spec_low by lia. reflexivity.
  - rewrite <- (Z.mod_small b (2 ^ k)) by lia.
    rewrite Z.mod_pow2_bits_high by lia. apply andb_false_r.
Qed.

Lemma land_0xF x : Z.land x 0xF = x mod 16.
Proof. change 0xF with (Z.ones 4). now rewrite Z.land_ones by lia. Qed.

Lemma land_0x3FF x : Z.land x 0x3FF = x mod 1024.
Proof. change 0x3FF with (Z.ones 10). now rewrite Z.land_ones by lia. Qed.

Lemma hexdigit_ascii d : 0 <= d < 16 -> is_ascii (hexdigit d) = true.
Proof.
  intros H. unfold hexdigit, is_ascii.
  destruct (d <? 10); apply andb_true_intro; split;
    (apply Z.leb_le || apply Z.ltb_lt); lia.
Qed.

Lemma unhex_hexdigit d : 0 <= d < 16 -> unhex (hexdigit d) = Some d.
Proof.
  intros H. unfold hexdigit.
  destruct (d <? 10) eqn:E; bools; unfold unhex, between; zcase; f_equal; lia.
Qed.

Lemma hex4_ascii n : forallb is_ascii (hex4 n) = true.
Proof.
  unfold hex4. simpl. rewrite !land_0xF.
  rewrite !hexdigit_ascii; [reflexivity| | | |]; apply Z.mod_pos_bound; lia.
Qed.

Lemma unhex4_hex4 n :
  0 <= n < 0x10000 ->
  exists a b c d, hex4 n = [a; b; c; d] /\ unhex4 a b c d = Some n.
Proof.
  intros H. unfold hex4. do 4 eexists. split; [reflexivity|].
  unfold unhex4. rewrite !land_0xF.
  rewrite !unhex_hexdigit by (apply Z.mod_pos_bound; lia).
  f_equal. rewrite !Z.shiftr_div_pow2 by lia.
  change (2 ^ 12) with 4096. change (2 ^ 8) with 256. change (2 ^ 4) with 16.
  Z.div_mod_to_equations. lia.
Qed.

Lemma escape_ascii c : forallb is_ascii (escape c) = true.
Proof.
  unfold escape. repeat (split_if; [reflexivity|]).
  split_if.
  - unfold between in *. bools. cbn [forallb]. unfold is_ascii. zcase; reflexivity.
  - split_if.
    + change (is_ascii 92 && (is_ascii 117 && forallb is_ascii (hex4 c)) = true).
      now rewrite hex4_ascii.
    + cbv zeta. rewrite forallb_app.
      change (is_ascii 92 && (is_ascii 117 && forallb is_ascii
               (hex4 (Z.lor 55296 (Z.land (Z.shiftr (c - 65536) 10) 1023))))
              && (is_ascii 92 && (is_ascii 117 && forallb is_ascii
               (hex4 (Z.lor 56320 (Z.land (c - 65536) 1023))))) = true).
      now rewrite !hex4_ascii.
Qed.

Lemma encode_basestring_ascii_ascii s :
  forallb is_ascii (encode_basestring_ascii s) = true.
Proof.
  unfold encode_basestring_ascii. cbn [forallb].
  rewrite forallb_app. cbn [forallb].
  replace (forallb is_ascii (flat_map escape s)) with true; [reflexivity|].
  symmetry. induction s as [|c s IH]; [reflexivity|].
  cbn [flat_map]. now rewrite forallb_app, escape_ascii, IH.
Qed.

Lemma uint_digits_digits u : forallb isdigit (uint_digits u) = true.
Proof. induction u; simpl; auto. Qed.

Lemma isdigit_ascii c : isdigit c = true -> is_ascii c = true.
Proof. unfold isdigit, is_ascii. intros H. bools. zcase; reflexivity. Qed.

Lemma int_repr_ascii z : forallb is_ascii (int_repr z) = true.
Proof.
  unfold int_repr. destruct (Z.to_int z); cbn [forallb];
    rewrite (forallb_impl _ _ _ isdigit_ascii (uint_digits_digits _)); reflexivity.
Qed.

Lemma dumps_value_ascii v : forallb is_ascii (dumps_value v) = true.
Proof.
  destruct v as [s|z|[|]]; simpl dumps_value;
    auto using encode_basestring_ascii_ascii, int_repr_ascii.
Qed.

Lemma dumps_items_ascii d : forallb is_ascii (dumps_items d) = true.
Proof.
  assert (Hitem : forall kv, forallb is_ascii (dumps_item kv) = true).
  { intros kv. unfold dumps_item. rewrite !forallb_app.
    now rewrite encode_basestring_ascii_ascii, dumps_value_ascii. }
  induction d as [|kv d IH]; [reflexivity|].
  cbn [dumps_items]. destruct d as [|kv' d]; [apply Hitem|].
  rewrite !forallb_app, Hitem, IH. reflexivity.
Qed.

(** Under [ensure_ascii] the output is ASCII, whatever the input. *)
Lemma dumps_ascii d : forallb is_ascii (dumps d) = true.
Proof.
  unfold dumps. rewrite !forallb_app, dumps_items_ascii. reflexivity.
Qed.

(** So [json.dumps(...).encode()] never raises. *)
Lemma encode_dumps d : encode (dumps d) = inr (map byte_of (dumps d)).
Proof. apply encode_ascii, dumps_ascii. Qed.

Lemma decode_dumps d : decode (map byte_of (dumps d)) = inr (dumps d).
Proof. unfold decode. now rewrite utf8_decode_ascii by apply dumps_ascii. Qed.

End DumpsFacts.

(* ================================================================= *)
(** * [loads] reads back what [dumps] wrote *)

Module LoadsFacts.
Import Py Model TextFacts DumpsFacts.

Lemma scanstring_u c tail :
  0 <= c < 0x10000 -> between 0xD800 c 0xDBFF = false ->
  scanstring (92 :: 117 :: hex4 c ++ tail) = cons_result c (scanstring tail).
Proof.
  intros Hc Hs.
  destruct (unhex4_hex4 c Hc) as (h1 & h2 & h3 & h4 & Hh & Hu).
  rewrite Hh. cbn [app]. scan_step.
  rewrite Hu, Hs. reflexivity.
Qed.

Lemma high_surrogate v :
  0 <= v < 0x100000 ->
  Z.lor 0xD800 (Z.land (Z.shiftr v 10) 0x3FF) = 0xD800 + v / 1024.
Proof.
  intros Hv. rewrite land_0x3FF, Z.shiftr_div_pow2 by lia.
  change (2 ^ 10) with 1024.
  rewrite Z.mod_small by (Z.div_mod_to_equations; lia).
  change 0xD800 with (Z.shiftl 54 10) at 1.
  rewrite lor_add_low; [reflexivity|lia|].
  change (2 ^ 10) with 1024. Z.div_mod_to_equations; lia.
Qed.

Lemma low_surrogate v : Z.lor 0xDC00 (Z.land v 0x3FF) = 0xDC00 + v mod 1024.
Proof.
  rewrite land_0x3FF.
  change 0xDC00 with (Z.shiftl 55 10) at 1.
  rewrite lor_add_low; [reflexivity|lia|].
  change (2 ^ 10) with 1024. apply Z.mod_pos_bound. lia.
Qed.

Lemma scanstring_pair c tail :
  0x10000 <= c <= 0x10FFFF ->
  let v := c - 0x10000 in
  let s1 := Z.lor 0xD800 (Z.land (Z.shiftr v 10) 0x3FF) in
  let s2 := Z.lor 0xDC00 (Z.land v 0x3FF) in
  scanstring ((92 :: 117 :: hex4 s1) ++ (92 :: 117 :: hex4 s2) ++ tail)
  = cons_result c (scanstring tail).
Proof.
  intros Hc v s1 s2.
  assert (Hv : 0 <= v < 0x100000) by (unfold v; lia).
  assert (H1 : s1 = 0xD800 + v / 1024) by (apply high_surrogate; exact Hv).
  assert (H2 : s2 = 0xDC00 + v mod 1024) by apply low_surrogate.
  assert (B1 : 0 <= v / 1024 < 1024) by (Z.div_mod_to_equations; lia).
  assert (B2 : 0 <= v mod 1024 < 1024) by (apply Z.mod_pos_bound; lia).
  destruct (unhex4_hex4 s1) as (a1 & a2 & a3 & a4 & Ha & Hua); [lia|].
  destruct (unhex4_hex4 s2) as (b1 & b2 & b3 & b4 & Hb & Hub); [lia|].
  rewrite Ha, Hb. scan_step.
  rewrite Hua.
  replace (between 55296 s1 56319) with true
    by (symmetry; unfold between; apply andb_true_intro; split; apply Z.leb_le; lia).
  rewrite Hub.
  replace (between 56320 s2 57343) with true
    by (symmetry; unfold between; apply andb_true_intro; split; apply Z.leb_le; lia).
  replace (65536 + Z.lor (Z.shiftl (s1 - 55296) 10) (s2 - 56320)) with c.
  - unfold cons_result. reflexivity.
  - rewrite lor_add_low by (change (2 ^ 10) with 1024; lia).
    change (2 ^ 10) with 1024. unfold v in *. Z.div_mod_to_equations. lia.
Qed.

(** Reading an escaped character gives the character back, and goes on
    with what follows. *)
Lemma scanstring_escape c tail :
  plain_char c = true ->
  scanstring (escape c ++ tail) = cons_result c (scanstring tail).
Proof.
  unfold plain_char, between. intros H. bools.
  unfold escape.
  repeat (split_if; [bools; subst c; scan_step; reflexivity|]).
  split_if.
  - cbn [app].
    cbn -[unhex4 between Z.add Z.sub Z.lor Z.shiftl Z.mul Z.eqb Z.ltb].
    repeat match goal with
           | H : (c =? _) = false |- context [c =? _] => rewrite H
           end.
    unfold between in *. bools.
    rewrite (proj2 (Z.ltb_ge c 32)) by lia. reflexivity.
  - split_if; [|cbv zeta].
    + bools. apply scanstring_u; [lia|]. exact H0.
    + bools. rewrite <- app_assoc. apply scanstring_pair. lia.
Qed.

Lemma scanstring_escaped s tail :
  forallb plain_char s = true ->
  scanstring (flat_map escape s ++ 34 :: tail) = Some (s, tail).
Proof.
  induction s as [|c s IH]; intros H.
  - reflexivity.
  - cbn [forallb] in H. apply andb_prop in H. destruct H as [Hc Hs].
    cbn [flat_map]. rewrite <- app_assoc, scanstring_escape by exact Hc.
    rewrite (IH Hs). reflexivity.
Qed.

(** A string literal as [dumps] writes it reads back as the string. *)
Lemma scan_value_string s tail :
  forallb plain_char s = true ->
  scan_value (encode_basestring_ascii s ++ tail) = Some (JStr s, tail).
Proof.
  intros H. unfold encode_basestring_ascii.
  cbn [app]. rewrite <- app_assoc. cbn [app].
  unfold scan_value. cbn [Z.eqb Pos.eqb].
  now rewrite scanstring_escaped.
Qed.

Lemma scan_uint_digits u : forall acc tail,
  match tail with [] => true | c :: _ => negb (isdigit c) end = true ->
  scan_uint acc (uint_digits u ++ tail) = (horner acc u, tail).
Proof.
  induction u; intros acc tail Ht; cbn [uint_digits app horner];
    try (cbn [scan_uint isdigit Z.leb Z.compare Pos.compare Pos.compare_cont andb];
         rewrite IHu by exact Ht; do 2 f_equal; lia).
  destruct tail as [|c tail]; [reflexivity|].
  cbn [scan_uint]. apply negb_true_iff in Ht. now rewrite Ht.
Qed.

Lemma of_uint_acc_horner u : forall acc,
  Z.pos (Pos.of_uint_acc u acc) = horner (Z.pos acc) u.
Proof.
  induction u; intros acc; cbn [Pos.of_uint_acc horner];
    try reflexivity; rewrite IHu; f_equal; lia.
Qed.

Lemma of_uint_horner u : Z.of_N (Pos.of_uint u) = horner 0 u.
Proof.
  induction u; cbn [Pos.of_uint horner]; try reflexivity;
    try (cbn [Z.of_N]; rewrite of_uint_acc_horner; reflexivity).
  exact IHu.
Qed.

Lemma nzhead_no_zero u u' : Decimal.nzhead u <> Decimal.D0 u'.
Proof. induction u; cbn [Decimal.nzhead]; try discriminate. exact IHu. Qed.

(** The digits of a positive number do not start with a zero. *)
Lemma to_uint_head p u' : Pos.to_uint p <> Decimal.D0 u'.
Proof.
  intros H.
  pose proof (DecimalPos.Unsigned.to_of (Pos.to_uint p)) as Hn.
  rewrite DecimalPos.Unsigned.of_to in Hn. cbn [N.to_uint] in Hn.
  rewrite H in Hn at 2. rewrite DecimalFacts.unorm_D0 in Hn.
  unfold Decimal.unorm in Hn.
  destruct (Decimal.nzhead u') eqn:E;
    try (rewrite H in Hn; rewrite <- E in Hn; symmetry in Hn;
         now apply nzhead_no_zero in Hn).
  apply (DecimalPos.Unsigned.to_uint_nonzero p). exact Hn.
Qed.

Lemma to_uint_leading p : leading (Pos.to_uint p) = true.
Proof.
  pose proof (to_uint_head p) as Hh.
  pose proof (DecimalPos.Unsigned.to_uint_nonnil p) as Hn.
  destruct (Pos.to_uint p); try reflexivity; [now elim Hn|now elim (Hh u)].
Qed.

Lemma horner_to_uint p : horner 0 (Pos.to_uint p) = Z.pos p.
Proof.
  rewrite <- of_uint_horner, DecimalPos.Unsigned.of_to. reflexivity.
Qed.

Lemma ends_number_digit tail :
  ends_number tail = true ->
  match tail with [] => true | c :: _ => negb (isdigit c) end = true.
Proof.
  destruct tail as [|c t]; [reflexivity|]. cbn [ends_number]. intros Ht.
  apply negb_true_iff in Ht.
  apply orb_false_elim in Ht. destruct Ht as [Ht _].
  apply orb_false_elim in Ht. destruct Ht as [Ht _].
  apply orb_false_elim in Ht. destruct Ht as [Ht _]. now rewrite Ht.
Qed.

Lemma ends_number_int tail (v : Z) :
  ends_number tail = true ->
  match tail with
  | [] => Some (v, tail)
  | c :: _ => if (c =? 46) || (c =? 101) || (c =? 69)
              then None else Some (v, tail)
  end = Some (v, tail).
Proof.
  destruct tail as [|c t]; [reflexivity|]. cbn [ends_number]. intros Ht.
  apply negb_true_iff in Ht.
  rewrite <- !orb_assoc in Ht. apply orb_false_elim in Ht.
  destruct Ht as [_ Ht]. rewrite !orb_assoc in Ht. now rewrite Ht.
Qed.

Lemma scan_number_uint u tail :
  leading u = true -> ends_number tail = true ->
  scan_number (uint_digits u ++ tail) = Some (horner 0 u, tail)
  /\ scan_number (45 :: uint_digits u ++ tail) = Some (- horner 0 u, tail).
Proof.
  intros Hu Ht.
  pose proof (ends_number_digit tail Ht) as Hd.
  destruct u; try discriminate Hu; cbn [uint_digits app horner];
    unfold scan_number; simpl; rewrite (scan_uint_digits _ _ _ Hd);
    split; apply ends_number_int; exact Ht.
Qed.

(** An integer as [dumps] writes it reads back as the integer. *)
Lemma scan_number_repr z tail :
  ends_number tail = true ->
  scan_number (int_repr z ++ tail) = Some (z, tail).
Proof.
  intros Ht. unfold int_repr. destruct z as [|p|p]; cbn [Z.to_int].
  - cbn [uint_digits app]. unfold scan_number. simpl.
    apply ends_number_int. exact Ht.
  - destruct (scan_number_uint _ _ (to_uint_leading p) Ht) as [H _].
    now rewrite H, horner_to_uint.
  - destruct (scan_number_uint _ _ (to_uint_leading p) Ht) as [_ H].
    cbn [app]. now rewrite H, horner_to_uint.
Qed.

Lemma int_repr_head z :
  exists c r, int_repr z = c :: r /\ (isdigit c = true \/ c = 45).
Proof.
  unfold int_repr. destruct z as [|p|p]; cbn [Z.to_int].
  - exists 48, []. split; [reflexivity|now left].
  - pose proof (to_uint_leading p) as H.
    destruct (Pos.to_uint p); try discriminate H; cbn [uint_digits];
      do 2 eexists; (split; [reflexivity|now left]).
  - do 2 eexists. split; [reflexivity|now right].
Qed.

Lemma scan_value_dumps v tail :
  plain_value v = true -> ends_number tail = true ->
  scan_value (dumps_value v ++ tail) = Some (v, tail).
Proof.
  intros Hv Ht. destruct v as [s|z|[|]]; cbn [dumps_value].
  - now apply scan_value_string.
  - destruct (int_repr_head z) as (c & r & Hr & Hc).
    pose proof (scan_number_repr z tail Ht) as Hn.
    rewrite Hr in *. cbn [app] in *. unfold scan_value.
    assert (E : (c =? 34) = false /\ (c =? 116) = false /\ (c =? 102) = false).
    { destruct Hc as [Hc|Hc]; [unfold isdigit in Hc; bools|subst c];
        repeat split; apply Z.eqb_neq; lia. }
    destruct E as (E1 & E2 & E3). rewrite E1, E2, E3, Hn. reflexivity.
  - reflexivity.
  - reflexivity.
Qed.

Lemma dumps_value_head v :
  exists c r, dumps_value v = c :: r /\ is_ws c = false.
Proof.
  destruct v as [s|z|[|]]; cbn [dumps_value].
  - unfold encode_basestring_ascii. do 2 eexists. split; reflexivity.
  - destruct (int_repr_head z) as (c & r & Hr & Hc).
    exists c, r. split; [exact Hr|].
    unfold is_ws. destruct Hc as [Hc|Hc]; [unfold isdigit in Hc; bools|subst c].
    + zcase; reflexivity.
    + reflexivity.
  - do 2 eexists. split; reflexivity.
  - do 2 eexists. split; reflexivity.
Qed.

Lemma dumps_items_head kv d :
  exists r, dumps_items (kv :: d) = 34 :: r.
Proof.
  cbn [dumps_items]. unfold dumps_item, encode_basestring_ascii.
  destruct d; eexists; cbn [app]; reflexivity.
Qed.

Lemma scan_members_dumps d : forall fuel tail,
  d <> [] -> plain_dict d = true -> (List.length d <= fuel)%nat ->
  scan_members fuel (dumps_items d ++ 125 :: tail) = Some (d, tail).
Proof.
  induction d as [|[k v] d IH]; intros fuel tail Hne Hp Hf; [congruence|].
  destruct fuel as [|fuel]; [cbn in Hf; lia|].
  cbn [plain_dict forallb fst snd] in Hp.
  apply andb_prop in Hp. destruct Hp as [Hkv Hd].
  apply andb_prop in Hkv. destruct Hkv as [Hk Hv].
  assert (Hitem : forall rest c,
    c = 125 \/ c = 44 ->
    exists s4, dumps_item (k, v) ++ c :: rest = 34 :: s4 /\
      scanstring s4 = Some (k, 58 :: 32 :: dumps_value v ++ c :: rest) /\
      scan_value (skip_ws (skip_ws [32] ++ dumps_value v ++ c :: rest))
      = Some (v, c :: rest)).
  { intros rest c Hc. unfold dumps_item, encode_basestring_ascii.
    cbn [fst snd app]. eexists. split; [reflexivity|]. split.
    - rewrite <- !app_assoc. cbn [app]. now rewrite scanstring_escaped.
    - cbn [skip_ws is_ws Z.eqb Pos.eqb orb app].
      destruct (dumps_value_head v) as (c0 & r0 & Hr0 & Hc0).
      assert (Hs : skip_ws (dumps_value v ++ c :: rest)
                   = dumps_value v ++ c :: rest).
      { rewrite Hr0. cbn [app skip_ws]. now rewrite Hc0. }
      rewrite Hs. apply scan_value_dumps; [exact Hv|].
      destruct Hc; subst c; reflexivity. }
  cbn [dumps_items]. destruct d as [|kv' d].
  - destruct (Hitem tail 125 (or_introl eq_refl)) as (s4 & E1 & E2 & E3).
    rewrite E1. cbn [scan_members Z.eqb Pos.eqb]. rewrite E2.
    cbn [skip_ws is_ws Z.eqb Pos.eqb orb app] in *.
    rewrite E3. reflexivity.
  - rewrite <- !app_assoc. cbn [app].
    destruct (Hitem (32 :: dumps_items (kv' :: d) ++ 125 :: tail) 44
                (or_intror eq_refl)) as (s4 & E1 & E2 & E3).
    rewrite E1. cbn [scan_members Z.eqb Pos.eqb]. rewrite E2.
    cbn [skip_ws is_ws Z.eqb Pos.eqb orb app] in *.
    rewrite E3.
    destruct (dumps_items_head kv' d) as (r & Hr).
    assert (Hs : skip_ws (dumps_items (kv' :: d) ++ 125 :: tail)
                 = dumps_items (kv' :: d) ++ 125 :: tail).
    { rewrite Hr. reflexivity. }
    cbn [skip_ws is_ws Z.eqb Pos.eqb orb].
    rewrite Hs, IH; [reflexivity|discriminate|exact Hd|cbn in Hf |- *; lia].
Qed.

Lemma dumps_items_length d :
  (List.length d <= List.length (dumps_items d))%nat.
Proof.
  induction d as [|kv d IH]; [apply Nat.le_refl|].
  cbn [dumps_items]. unfold dumps_item, encode_basestring_ascii.
  destruct d as [|kv' d]; cbn [List.length app].
  - lia.
  - remember (dumps_items (kv' :: d)) as rest.
    rewrite !length_app. cbn [List.length] in *. lia.
Qed.

(** Reading what [dumps] wrote gives the dictionary back. *)
Lemma loads_dumps d : plain_dict d = true -> loads (dumps d) = Some d.
Proof.
  intros Hp. unfold dumps, loads. cbn [app skip_ws is_ws Z.eqb Pos.eqb orb].
  destruct d as [|kv d].
  - reflexivity.
  - destruct (dumps_items_head kv d) as (r & Hr).
    assert (Hs : skip_ws (dumps_items (kv :: d) ++ [125])
                 = dumps_items (kv :: d) ++ [125]).
    { rewrite Hr. reflexivity. }
    rewrite Hs. rewrite Hr at 1. cbn [app Z.eqb Pos.eqb].
    rewrite scan_members_dumps; [reflexivity|discriminate|exact Hp|].
    pose proof (dumps_items_length (kv :: d)) as Hl.
    cbn [List.length] in *. rewrite length_app. cbn [List.length]. lia.
Qed.

End LoadsFacts.
(* ================================================================= *)
(** * The handlers, run *)

Module HandlerFacts.
Import Py Http Server Model TextFacts DumpsFacts LoadsFacts.

Lemma do_GET_respond PORT self :
  do_GET PORT self = respond self (get_dict PORT self).
Proof. reflexivity. Qed.

(** [do_POST], branch by branch. *)
Lemma do_POST_run PORT self c :
  do_POST PORT self c =
  match int (headers_get self "Content-Length" (PyInt 0)) with
  | inl e => (inl e, c)
  | inr n =>
    if n =? 0 then respond self (post_dict PORT self false) c
    else
      match rfile_read n c with
      | (inl e, c') => (inl e, c')
      | (inr data, c') =>
        match decode data with
        | inl e => (inl e, c')
        | inr text => respond self (post_dict PORT self (str_truth text)) c'
        end
      end
  end.
Proof.
  unfold do_POST. unfold bind at 1.
  destruct (int (headers_get self "Content-Length" (PyInt 0))) as [e|n];
    [reflexivity|].
  cbn [lift ret raise]. unfold bind at 1. unfold int_truth.
  destruct (n =? 0); [reflexivity|]. cbn [negb].
  unfold bind at 1.
  destruct (rfile_read n c) as [[e|data] c']; [reflexivity|].
  destruct (decode data) as [e|text]; [reflexivity|].
  cbn [lift ret raise]. destruct text; reflexivity.
Qed.

(** The response statements for a request with a version of its
    own: status line, header and blank line in one write, the body in
    another. *)
Lemma respond_run self d c :
  simple self = false ->
  respond self d c =
  match wfile_left c with
  | Some O =>
    (inl OSError,
     {| rfile := rfile c; rfile_broken := rfile_broken c;
        memory := memory c; wfile_left := Some O;
        trace := trace c ++ [SendResponse 200; content_type_json] |})
  | Some (S O) =>
    (inl OSError,
     {| rfile := rfile c; rfile_broken := rfile_broken c;
        memory := memory c; wfile_left := Some O;
        trace := trace c ++ [SendResponse 200; content_type_json; EndHeaders] |})
  | budget =>
    (inr tt,
     {| rfile := rfile c; rfile_broken := rfile_broken c;
        memory := memory c;
        wfile_left := option_map Nat.pred (option_map Nat.pred budget);
        trace := trace c ++ [SendResponse 200; content_type_json; EndHeaders;
                             Write (map byte_of (dumps d))] |})
  end.
Proof.
  intros Hs. unfold respond, send_response, send_header, end_headers.
  rewrite Hs, encode_dumps.
  destruct c as [rf br mem [[|[|k]]|] tr];
    cbv [bind wfile_write log socket_write lift ret raise rfile rfile_broken
         memory wfile_left trace option_map Nat.pred content_type_json];
    rewrite <- ?app_assoc; reflexivity.
Qed.

(** The same statements for an HTTP/0.9 request: the body is all that
    is written. *)
Lemma respond_run_simple self d c :
  simple self = true ->
  respond self d c =
  match wfile_left c with
  | Some O => (inl OSError, c)
  | budget =>
    (inr tt,
     {| rfile := rfile c; rfile_broken := rfile_broken c;
        memory := memory c; wfile_left := option_map Nat.pred budget;
        trace := trace c ++ [Write (map byte_of (dumps d))] |})
  end.
Proof.
  intros Hs. unfold respond, send_response, send_header, end_headers.
  rewrite Hs, encode_dumps.
  destruct c as [rf br mem [[|k]|] tr];
    cbv [bind wfile_write log socket_write lift ret raise rfile rfile_broken
         memory wfile_left trace option_map Nat.pred];
    reflexivity.
Qed.

(** The response statements end in one of the ways [responded] lists,
    and leave the request stream alone. *)
Lemma respond_responded self d c :
  responded (simple self) d (trace c) (wfile_left c)
    (fst (respond self d c)) (trace (snd (respond self d c)))
  /\ rfile (snd (respond self d c)) = rfile c.
Proof.
  destruct (simple self) eqn:Hs.
  - rewrite respond_run_simple by exact Hs.
    destruct c as [rf br mem [[|k]|] tr];
      cbn [rfile wfile_left trace fst snd]; (split; [|reflexivity]).
    + now apply Unsent.
    + apply BodyOnly; [reflexivity|cbn; lia].
    + apply BodyOnly; [reflexivity|exact I].
  - rewrite respond_run by exact Hs.
    destruct c as [rf br mem [[|[|k]]|] tr];
      cbn [rfile wfile_left trace fst snd]; (split; [|reflexivity]).
    + now apply Unflushed.
    + now apply HeadersOnly.
    + apply Complete; [reflexivity|cbn; lia].
    + apply Complete; [reflexivity|exact I].
Qed.

(** A read that raises leaves no event and takes no write. *)
Lemma rfile_read_quiet n c e c' :
  rfile_read n c = (inl e, c') ->
  trace c' = trace c /\ wfile_left c' = wfile_left c.
Proof.
  unfold rfile_read.
  repeat (match goal with
          | |- context [if ?b then _ else _] => destruct b
          end);
    intros H; inversion H; subst; split; reflexivity.
Qed.

Lemma rfile_read_data n c data c' :
  rfile_read n c = (inr data, c') ->
  -1 <= n
  /\ data = firstn (if n =? -1 then List.length (rfile c) else Z.to_nat n) (rfile c)
  /\ rfile c' = skipn (if n =? -1 then List.length (rfile c) else Z.to_nat n) (rfile c)
  /\ wfile_left c' = wfile_left c
  /\ trace c' = trace c ++ [Read n data].
Proof.
  unfold rfile_read.
  destruct ((n <? PY_SSIZE_T_MIN) || (PY_SSIZE_T_MAX <? n)); [discriminate|].
  destruct (n <? -1) eqn:E1; [discriminate|]. bools.
  destruct (n =? -1) eqn:E2.
  - destruct (rfile_broken c); [discriminate|].
    intros H. inversion H; subst. cbn [rfile wfile_left trace].
    rewrite firstn_all, skipn_all. auto.
  - destruct (bytes_max <? n); [discriminate|].
    destruct (memory c <? n); [discriminate|].
    destruct ((Z.of_nat (List.length (rfile c)) <? n) && rfile_broken c);
      [discriminate|].
    intros H. inversion H; subst. cbn [rfile wfile_left trace]. auto.
Qed.


(** Every run of a handler on a fresh connection ends in one of the
    ways [handled] lists. *)
Lemma handle_handled PORT cmd self input broken mem budget :
  handled PORT self budget cmd
    (fst (handle PORT cmd self (fresh input broken mem budget)))
    (trace (snd (handle PORT cmd self (fresh input broken mem budget)))).
Proof.
  destruct cmd; cbn [handle].
  - rewrite do_GET_respond. apply GetResponds.
    apply (respond_responded _ _ (fresh input broken mem budget)).
  - rewrite do_POST_run.
    destruct (int (headers_get self "Content-Length" (PyInt 0))) as [e|n].
    + apply PostRefused. reflexivity.
    + destruct (n =? 0).
      * apply PostResponds with (received := false) (pre := []); [reflexivity|].
        apply (respond_responded _ _ (fresh input broken mem budget)).
      * destruct (rfile_read n (fresh input broken mem budget))
          as [[e|data] c'] eqn:Er.
        -- apply rfile_read_quiet in Er. destruct Er as [Ht _].
           apply PostRefused. cbn [fst snd]. rewrite Ht. reflexivity.
        -- apply rfile_read_data in Er.
           destruct Er as (_ & _ & _ & Hw & Ht). cbn [fresh trace app] in Ht.
           cbn [fresh wfile_left] in Hw.
           destruct (decode data) as [e|text].
           ++ apply PostRefused. cbn [fst snd]. rewrite Ht. reflexivity.
           ++ apply PostResponds with (received := str_truth text)
                                      (pre := [Read n data]); [reflexivity|].
              rewrite <- Ht, <- Hw. apply respond_responded.
Qed.

(** *** What the client reads off each kind of trace *)

Lemma response_of_complete pre d :
  filter is_output pre = [] ->
  response_of (pre ++ [SendResponse 200; content_type_json; EndHeaders;
                       Write (map byte_of (dumps d))])
  = Some {| status := Some 200;
            response_headers :=
              [(latin1 "Content-type", latin1 "application/json")];
            body := map byte_of (dumps d) |}.
Proof.
  intros Hpre. unfold response_of. rewrite filter_app, Hpre.
  cbn [app filter is_output content_type_json header_block written
       option_map]. now rewrite List.app_nil_r.
Qed.

Lemma response_of_headers_only pre :
  filter is_output pre = [] ->
  response_of (pre ++ [SendResponse 200; content_type_json; EndHeaders])
  = Some {| status := Some 200;
            response_headers :=
              [(latin1 "Content-type", latin1 "application/json")];
            body := [] |}.
Proof.
  intros Hpre. unfold response_of. rewrite filter_app, Hpre. reflexivity.
Qed.

Lemma response_of_unflushed pre :
  filter is_output pre = [] ->
  response_of (pre ++ [SendResponse 200; content_type_json]) = None.
Proof.
  intros Hpre. unfold response_of. rewrite filter_app, Hpre. reflexivity.
Qed.

Lemma response_of_body_only pre d :
  filter is_output pre = [] ->
  response_of (pre ++ [Write (map byte_of (dumps d))])
  = Some {| status := None; response_headers := [];
            body := map byte_of (dumps d) |}.
Proof.
  intros Hpre. unfold response_of. rewrite filter_app, Hpre.
  cbn [app filter is_output written]. now rewrite List.app_nil_r.
Qed.

Lemma response_of_silent pre :
  filter is_output pre = [] -> response_of pre = None.
Proof. intros Hpre. unfold response_of. now rewrite Hpre. Qed.

Lemma status_codes_quiet pre :
  filter is_output pre = [] -> status_codes pre = [].
Proof.
  induction pre as [|e pre IH]; [reflexivity|].
  destruct e; cbn [filter is_output]; try discriminate.
  intros H. cbn [status_codes flat_map app]. exact (IH H).
Qed.

Lemma status_codes_app tr1 tr2 :
  status_codes (tr1 ++ tr2) = status_codes tr1 ++ status_codes tr2.
Proof. unfold status_codes. apply flat_map_app. Qed.

Lemma reads_app tr1 tr2 : reads (tr1 ++ tr2) = reads tr1 ++ reads tr2.
Proof. unfold reads. apply flat_map_app. Qed.

Lemma json_dumps st hs d :
  plain_dict d = true ->
  json {| status := st; response_headers := hs;
          body := map byte_of (dumps d) |} = Some d.
Proof.
  intros Hp. unfold json. cbn [body]. rewrite decode_dumps.
  now apply loads_dumps.
Qed.

Lemma get_dict_plain PORT self : plain_dict (get_dict PORT self) = true.
Proof.
  unfold plain_dict, get_dict. cbn [forallb fst snd plain_value].
  rewrite !latin1_plain. reflexivity.
Qed.

Lemma post_dict_plain PORT self b : plain_dict (post_dict PORT self b) = true.
Proof.
  unfold plain_dict, post_dict. cbn [forallb fst snd plain_value].
  rewrite !latin1_plain. reflexivity.
Qed.

(** The status, the headers and the body of whatever reply a trace of
    [responded] makes. *)
Lemma responded_reply s d pre budget res tr r :
  filter is_output pre = [] ->
  responded s d pre budget res tr ->
  response_of tr = Some r ->
  status r = (if s then None else Some 200)
  /\ response_headers r
     = (if s return list (str * str) then []
        else [(latin1 "Content-type", latin1 "application/json")])
  /\ (body r = [] \/ body r = map byte_of (dumps d)).
Proof.
  intros Hpre Hr. inversion Hr; subst; intros Hresp.
  - rewrite response_of_unflushed in Hresp by exact Hpre. discriminate.
  - rewrite response_of_headers_only in Hresp by exact Hpre.
    inversion Hresp; subst. repeat split. now left.
  - rewrite response_of_complete in Hresp by exact Hpre.
    inversion Hresp; subst. repeat split. now right.
  - rewrite response_of_silent in Hresp by exact Hpre. discriminate.
  - rewrite response_of_body_only in Hresp by exact Hpre.
    inversion Hresp; subst. repeat split. now right.
Qed.


(** A request with a version of its own has one status sent, 200, as
    soon as the response statements are reached. *)
Lemma responded_status d pre budget res tr :
  filter is_output pre = [] ->
  responded false d pre budget res tr -> status_codes tr = [200].
Proof.
  intros Hpre Hr.
  inversion Hr; subst; try discriminate;
    rewrite status_codes_app, (status_codes_quiet _ Hpre); reflexivity.
Qed.



Lemma responded_failure s d pre budget e tr :
  responded s d pre budget (inl e) tr -> e = OSError /\ ~ accepts 2 budget.
Proof.
  intros Hr. inversion Hr; subst; (split; [reflexivity|cbn; lia]).
Qed.


(** No empty body decodes to a JSON object. *)
Lemma json_empty st hs :
  json {| status := st; response_headers := hs; body := [] |} = None.
Proof. reflexivity. Qed.

End HandlerFacts.

(* ================================================================= *)
(** * The decoder accepts the well-formed sequences, and only those *)

Module Utf8Facts.
Import Py Http Server Model TextFacts.





Lemma decode_only_unicode_error b e : decode b = inl e -> e = UnicodeDecodeError.
Proof.
  unfold decode. destruct (utf8_decode_vals (map byte_val b));
    intros H; inversion H; reflexivity.
Qed.


End Utf8Facts.

(* ================================================================= *)
(** * The server, run *)

Module ServerFacts.
Import Py Http Server Model.
Import TextFacts DumpsFacts LoadsFacts HandlerFacts Utf8Facts.

Lemma some_eq {A} (a b : A) : Some a = Some b -> a = b.
Proof. congruence. Qed.

Lemma field_of_dumps st hs d name :
  plain_dict d = true ->
  field {| status := st; response_headers := hs;
           body := map byte_of (dumps d) |} name
  = get (latin1 name) d.
Proof. intros Hp. unfold field. now rewrite json_dumps. Qed.



Lemma environ_get_present before name v after default :
  (forall w, ~ In (name, w) before) ->
  environ_get (before ++ (name, v) :: after) name default = PyStr (latin1 v).
Proof.
  induction before as [|[k w] before IH]; intros H; cbn [app environ_get].
  - now rewrite String.eqb_refl.
  - destruct (String.eqb k name) eqn:E.
    + apply String.eqb_eq in E. subst k. elim (H w). now left.
    + apply IH. intros u Hu. apply (H u). now right.
Qed.

Lemma int_of_str_error s e : int_of_str s = inl e -> e = ValueError.
Proof.
  unfold int_of_str.
  destruct (match lstrip (map to_ascii_decimal_and_space s) with
            | [] => (false, [])
            | c :: t' => _
            end) as [neg t].
  destruct (scan_digits 0 0 t) as [[[v n] rest]|];
    [destruct (forallb Py_ISSPACE rest && (n <=? int_max_str_digits)%nat)|];
    intros H; inversion H; reflexivity.
Qed.

(** What one handler run tells about the port. *)
Lemma handled_port PORT self budget cmd res tr :
  handled PORT self budget cmd res tr ->
  (forall r v, response_of tr = Some r -> field r "port" = Some v ->
               v = JInt PORT)
  /\ (res = inr tt ->
      exists r, response_of tr = Some r /\ field r "port" = Some (JInt PORT)).
Proof.
  assert (Hd : forall s d pre res tr,
    filter is_output pre = [] -> plain_dict d = true ->
    get (latin1 "port") d = Some (JInt PORT) ->
    responded s d pre budget res tr ->
    (forall r v, response_of tr = Some r -> field r "port" = Some v ->
                 v = JInt PORT)
    /\ (res = inr tt ->
        exists r, response_of tr = Some r /\ field r "port" = Some (JInt PORT))).
  { intros s d pre res' tr' Hpre Hp Hg Hr. inversion Hr; subst.
    - rewrite response_of_unflushed by exact Hpre. split; [|discriminate].
      intros r v Hq. discriminate Hq.
    - rewrite response_of_headers_only by exact Hpre. split; [|discriminate].
      intros r v Hq. apply some_eq in Hq. subst r. unfold field.
      rewrite json_empty. discriminate.
    - rewrite response_of_complete by exact Hpre. split.
      + intros r v Hq. apply some_eq in Hq. subst r.
        rewrite field_of_dumps, Hg by exact Hp. congruence.
      + intros _. eexists. split; [reflexivity|].
        now rewrite field_of_dumps, Hg by exact Hp.
    - rewrite response_of_silent by exact Hpre. split; [|discriminate].
      intros r v Hq. discriminate Hq.
    - rewrite response_of_body_only by exact Hpre. split.
      + intros r v Hq. apply some_eq in Hq. subst r.
        rewrite field_of_dumps, Hg by exact Hp. congruence.
      + intros _. eexists. split; [reflexivity|].
        now rewrite field_of_dumps, Hg by exact Hp. }
  intros H. inversion H; subst.
  - apply (Hd (simple self) (get_dict PORT self) []);
      auto using get_dict_plain.
  - rewrite response_of_silent by assumption. split; [|discriminate].
    intros r v Hr. discriminate Hr.
  - apply (Hd (simple self) (post_dict PORT self received) pre);
      auto using post_dict_plain.
Qed.






(** *** Which requests reach the methods *)




End ServerFacts.
(* ================================================================= *)
(** * The claims *)

Module Claims.
Import Py Http Server Model.
Import TextFacts DumpsFacts LoadsFacts HandlerFacts Utf8Facts ServerFacts.

(* ----------------------------------------------------------------- *)




(* ----------------------------------------------------------------- *)




(* ----------------------------------------------------------------- *)




(* ----------------------------------------------------------------- *)

(** C4.  Let [PORT] be the value bound at startup from the
    environment.  Over any sequence of connections, every reply that
    carries a port field carries [PORT], and every handler run that
    returns normally has sent a reply with port = [PORT]; what a run
    of the program serves is that sequence, handled with that one
    [PORT]; and the socket listens on [PORT] (unless [PORT] is 0, which
    asks the system for a port). *)
Theorem port_field_is_PORT :
  forall (env : environ) (os : system) (conns : list incoming) (PORT : Z),
    PORT_of env = inr PORT ->
    Forall (fun out =>
              (forall r v, reply out = Some r ->
                           field r "port" = Some v -> v = JInt PORT)
              /\ (fst out = inr tt ->
                  exists r, reply out = Some r
                            /\ field r "port" = Some (JInt PORT)))
           (serve_forever PORT conns)
    /\ (forall outs, served (main env os conns) = inr outs ->
                     outs = serve_forever PORT conns)
    /\ (forall p, listening (main env os conns) = Some p ->
                  PORT <> 0 -> p = PORT).
Proof.
  intros env os conns PORT HP. split; [|split].
  - induction conns as [|i conns IH]; cbn [serve_forever]; constructor;
      [|exact IH].
    unfold serve_one, reply.
    apply (handled_port PORT (parsed i) (patience i) (method i)).
    apply handle_handled.
  - intros outs. unfold main. rewrite HP.
    destruct (negb (between 0 PORT 65535)); [discriminate|].
    destruct (negb (port_free os PORT)); [discriminate|].
    cbn [served]. intros H. injection H as H. now subst outs.
  - intros p. unfold main. rewrite HP.
    destruct (negb (between 0 PORT 65535)); [discriminate|].
    destruct (negb (port_free os PORT)); [discriminate|].
    cbn [listening]. intros H Hz. apply Z.eqb_neq in Hz. rewrite Hz in H.
    injection H as H. now subst p.
Qed.

Lemma port_field_is_PORT_witness :
  PORT_of [("PORT", "9090")%string] = inr 9090
  /\ listening (main [("PORT", "9090")%string]
                  {| port_free := fun _ => true; ephemeral := 49152 |}
                  [ {| method := GET; parsed := root; input := [];
                       broken := false; room := 4096; patience := None |};
                    {| method := POST; parsed := submit "5"; input := hello;
                       broken := false; room := 4096; patience := None |} ])
     = Some 9090
  /\ Forall (fun out =>
               fst out = inr tt ->
               exists r, reply out = Some r
                         /\ field r "port" = Some (JInt 9090))
       (serve_forever 9090
          [ {| method := GET; parsed := root; input := [];
               broken := false; room := 4096; patience := None |};
            {| method := POST; parsed := submit "5"; input := hello;
               broken := false; room := 4096; patience := None |} ]).
Proof.
  split; [reflexivity|]. split; [reflexivity|].
  destruct (port_field_is_PORT [("PORT", "9090")%string]
              {| port_free := fun _ => true; ephemeral := 49152 |}
              [ {| method := GET; parsed := root; input := [];
                   broken := false; room := 4096; patience := None |};
                {| method := POST; parsed := submit "5"; input := hello;
                   broken := false; room := 4096; patience := None |} ]
              9090 eq_refl) as (Hall & _ & _).
  eapply Forall_impl; [|exact Hall].
  intros out [_ H]. exact H.
Defined.

(* ----------------------------------------------------------------- *)




(* ----------------------------------------------------------------- *)



(* ----------------------------------------------------------------- *)



(* ----------------------------------------------------------------- *)



(* ----------------------------------------------------------------- *)



(* ----------------------------------------------------------------- *)



(* ----------------------------------------------------------------- *)



(* ----------------------------------------------------------------- *)



End Claims.

(* ================================================================= *)
(** * More of the program's behaviour *)

Module MoreFacts.
Import Py Http Server Model.
Import TextFacts DumpsFacts LoadsFacts HandlerFacts Utf8Facts ServerFacts.

(** *** What [dumps] writes is printable *)

Lemma hexdigit_printable d : 0 <= d < 16 -> printable (hexdigit d) = true.
Proof.
  intros H. unfold hexdigit, printable, between.
  destruct (d <? 10) eqn:E; bools; zcase; reflexivity.
Qed.

Lemma hex4_printable n : forallb printable (hex4 n) = true.
Proof.
  unfold hex4. cbn [forallb]. rewrite !land_0xF.
  rewrite !hexdigit_printable; [reflexivity| | | |]; apply Z.mod_pos_bound; lia.
Qed.

Lemma escape_printable c : forallb printable (escape c) = true.
Proof.
  unfold escape. repeat (split_if; [reflexivity|]).
  split_if.
  - cbn [forallb]. unfold printable. now rewrite E6.
  - split_if.
    + change (printable 92 && (printable 117 && forallb printable (hex4 c))
              = true).
      now rewrite hex4_printable.
    + cbv zeta. rewrite forallb_app.
      change (printable 92 && (printable 117 && forallb printable
               (hex4 (Z.lor 55296 (Z.land (Z.shiftr (c - 65536) 10) 1023))))
              && (printable 92 && (printable 117 && forallb printable
               (hex4 (Z.lor 56320 (Z.land (c - 65536) 1023))))) = true).
      now rewrite !hex4_printable.
Qed.

Lemma encode_basestring_ascii_printable s :
  forallb printable (encode_basestring_ascii s) = true.
Proof.
  unfold encode_basestring_ascii. cbn [forallb].
  rewrite forallb_app. cbn [forallb].
  replace (forallb printable (flat_map escape s)) with true; [reflexivity|].
  symmetry. induction s as [|c s IH]; [reflexivity|].
  cbn [flat_map]. now rewrite forallb_app, escape_printable, IH.
Qed.

Lemma isdigit_printable c : isdigit c = true -> printable c = true.
Proof.
  unfold isdigit, printable, between. intros H. bools. zcase; reflexivity.
Qed.

Lemma int_repr_printable z : forallb printable (int_repr z) = true.
Proof.
  unfold int_repr. destruct (Z.to_int z); cbn [forallb];
    rewrite (forallb_impl _ _ _ isdigit_printable (uint_digits_digits _));
    reflexivity.
Qed.

Lemma dumps_value_printable v : forallb printable (dumps_value v) = true.
Proof.
  destruct v as [s|z|[|]]; cbn [dumps_value];
    [apply encode_basestring_ascii_printable|apply int_repr_printable
    |reflexivity|reflexivity].
Qed.

Lemma dumps_items_printable d : forallb printable (dumps_items d) = true.
Proof.
  assert (Hitem : forall kv, forallb printable (dumps_item kv) = true).
  { intros kv. unfold dumps_item. rewrite !forallb_app.
    now rewrite encode_basestring_ascii_printable, dumps_value_printable. }
  induction d as [|kv d IH]; [reflexivity|].
  cbn [dumps_items]. destruct d as [|kv' d]; [apply Hitem|].
  rewrite !forallb_app, Hitem, IH. reflexivity.
Qed.

Lemma dumps_printable d : forallb printable (dumps d) = true.
Proof.
  unfold dumps. rewrite !forallb_app, dumps_items_printable. reflexivity.
Qed.

Lemma octets_printable s :
  forallb printable s = true ->
  Forall (fun b => 32 <= byte_val b <= 126) (map byte_of s).
Proof.
  induction s as [|c s IH]; cbn [forallb map]; intros H; constructor.
  - apply andb_prop in H. destruct H as [Hc _].
    unfold printable, between in Hc. bools.
    rewrite byte_val_of by lia. lia.
  - apply IH. apply andb_prop in H. tauto.
Qed.

(** *** [int] of a number written out *)

Lemma scan_digits_all s : forall acc k,
  s <> [] -> forallb isdigit s = true ->
  scan_digits acc k s
  = Some (fold_left (fun a c => 10 * a + (c - 48)) s acc,
          (k + List.length s)%nat, []).
Proof.
  induction s as [|c s IH]; intros acc k Hne Hd; [now elim Hne|].
  cbn [forallb] in Hd. apply andb_prop in Hd. destruct Hd as [Hc Hs].
  cbn [scan_digits]. rewrite Hc.
  destruct s as [|u s'].
  - cbn [fold_left List.length]. do 3 f_equal. lia.
  - assert (Hu : isdigit u = true)
      by (cbn [forallb] in Hs; apply andb_prop in Hs; tauto).
    replace (u =? 95) with false
      by (symmetry; apply Z.eqb_neq; unfold isdigit in Hu; bools; lia).
    rewrite Hu, IH by (discriminate || exact Hs).
    cbn [fold_left List.length]. do 3 f_equal. lia.
Qed.

Lemma to_ascii_printable s :
  forallb printable s = true -> map to_ascii_decimal_and_space s = s.
Proof.
  induction s as [|c s IH]; [reflexivity|].
  cbn [forallb map]. intros H. apply andb_prop in H. destruct H as [Hc Hs].
  rewrite (IH Hs). f_equal. unfold to_ascii_decimal_and_space.
  unfold printable, between in Hc. bools.
  replace (c <? 127) with true by (symmetry; apply Z.ltb_lt; lia).
  reflexivity.
Qed.

(** [int] of a string of digits, signed or not. *)
Lemma int_of_str_digits s :
  s <> [] -> forallb isdigit s = true ->
  (List.length s <= int_max_str_digits)%nat ->
  int_of_str s = inr (fold_left (fun a c => 10 * a + (c - 48)) s 0)
  /\ int_of_str (45 :: s)
     = inr (- fold_left (fun a c => 10 * a + (c - 48)) s 0).
Proof.
  intros Hne Hd Hlen.
  assert (Hp : forallb printable s = true)
    by exact (forallb_impl _ _ _ isdigit_printable Hd).
  assert (Hlim : (List.length s <=? int_max_str_digits)%nat = true)
    by now apply Nat.leb_le.
  split.
  - unfold int_of_str. rewrite (to_ascii_printable _ Hp).
    destruct s as [|c s]; [now elim Hne|].
    assert (Hc : isdigit c = true)
      by (cbn [forallb] in Hd; apply andb_prop in Hd; tauto).
    assert (Hr : 48 <= c <= 57) by (unfold isdigit in Hc; bools; lia).
    cbn [lstrip]. unfold Py_ISSPACE.
    replace (9 <=? c) with true by (symmetry; apply Z.leb_le; lia).
    replace (c <=? 13) with false by (symmetry; apply Z.leb_gt; lia).
    replace (c =? 32) with false by (symmetry; apply Z.eqb_neq; lia).
    cbn [andb orb].
    replace (c =? 43) with false by (symmetry; apply Z.eqb_neq; lia).
    replace (c =? 45) with false by (symmetry; apply Z.eqb_neq; lia).
    rewrite scan_digits_all by assumption.
    cbn [forallb andb Nat.add]. now rewrite Hlim.
  - unfold int_of_str. cbn [map].
    change (to_ascii_decimal_and_space 45) with 45.
    rewrite (to_ascii_printable _ Hp). cbn [lstrip].
    change (Py_ISSPACE 45) with false. cbv iota.
    change (45 =? 43) with false. change (45 =? 45) with true. cbv iota.
    rewrite scan_digits_all by assumption.
    cbn [forallb andb Nat.add]. now rewrite Hlim.
Qed.

Lemma fold_digits_horner u : forall acc,
  fold_left (fun a c => 10 * a + (c - 48)) (uint_digits u) acc = horner acc u.
Proof.
  induction u; intros acc; cbn [uint_digits fold_left horner];
    try reflexivity; rewrite IHu; f_equal; lia.
Qed.

(** [int] reads back what [repr] writes: every integer of at most 4300
    characters in decimal. *)
Lemma int_of_str_repr z :
  (List.length (int_repr z) <= int_max_str_digits)%nat ->
  int_of_str (int_repr z) = inr z.
Proof.
  unfold int_repr. destruct z as [|p|p]; cbn [Z.to_int]; intros Hlen.
  - reflexivity.
  - destruct (int_of_str_digits (uint_digits (Pos.to_uint p))) as [H _];
      [|apply uint_digits_digits|exact Hlen|].
    + pose proof (to_uint_leading p) as Hl.
      destruct (Pos.to_uint p); discriminate.
    + now rewrite H, fold_digits_horner, horner_to_uint.
  - destruct (int_of_str_digits (uint_digits (Pos.to_uint p))) as [_ H];
      [|apply uint_digits_digits|cbn [List.length] in Hlen; lia|].
    + pose proof (to_uint_leading p) as Hl.
      destruct (Pos.to_uint p); discriminate.
    + now rewrite H, fold_digits_horner, horner_to_uint.
Qed.

(** *** The replies of a handler run *)

(** Whatever reply a handler run leaves: its status line and header
    are those of the request's version, and its body is cut off or the
    whole of one of the two objects. *)
Lemma handled_reply PORT self budget cmd res tr r :
  handled PORT self budget cmd res tr ->
  response_of tr = Some r ->
  status r = (if simple self then None else Some 200)
  /\ response_headers r
     = (if simple self return list (str * str) then []
        else [(latin1 "Content-type", latin1 "application/json")])
  /\ (body r = []
      \/ body r = map byte_of (dumps (get_dict PORT self))
      \/ exists received,
           body r = map byte_of (dumps (post_dict PORT self received))).
Proof.
  intros H Hq. inversion H as [res' tr' Hr|e pre Hpre|received pre res' tr' Hpre Hr];
    subst.
  - destruct (responded_reply _ _ [] _ _ _ r eq_refl Hr Hq)
      as (Hs & Hh & [Hb|Hb]); auto.
  - rewrite response_of_silent in Hq by assumption. discriminate.
  - destruct (responded_reply _ _ pre _ _ _ r Hpre Hr Hq)
      as (Hs & Hh & [Hb|Hb]); auto.
    split; [exact Hs|]. split; [exact Hh|]. right. right. now exists received.
Qed.

Lemma int_header_error self name default e :
  int (headers_get self name (PyInt default)) = inl e -> e = ValueError.
Proof.
  unfold headers_get. destruct (header_of self name) as [v|]; cbn [int].
  - apply int_of_str_error.
  - discriminate.
Qed.


(** What a read can raise. *)
Lemma rfile_read_error n c e c' :
  rfile_read n c = (inl e, c') ->
  e = OverflowError \/ e = ValueError \/ e = MemoryError \/ e = OSError.
Proof.
  unfold rfile_read.
  repeat (match goal with
          | |- context [if ?b then _ else _] => destruct b
          end);
    intros H; inversion H; subst; auto.
Qed.


End MoreFacts.

(* ================================================================= *)
(** * Further properties of the handlers and of the module body *)

Module Behaviour.
Import Py Http Server Model.
Import TextFacts DumpsFacts LoadsFacts HandlerFacts Utf8Facts ServerFacts.
Import MoreFacts.



(* ----------------------------------------------------------------- *)



(* ----------------------------------------------------------------- *)



(* ----------------------------------------------------------------- *)

(** X6.  How [do_POST] can fail.  Whatever it raises, either nothing
    at all has been written for the client, or the exception is the
    [OSError] of a write the client did not take, after the one status
    line 200 was made.  No request fails half-way for a reason of its
    own, and the encoding of the response body never fails. *)
Theorem post_failure_kinds :
  forall (PORT : Z) (self : request) (input : bytes) (broken : bool)
         (mem : Z) (budget : option nat) (e : exn),
    fst (do_POST PORT self (fresh input broken mem budget)) = inl e ->
    e <> UnicodeEncodeError
    /\ (filter is_output
          (trace (snd (do_POST PORT self (fresh input broken mem budget))))
        = []
        \/ (e = OSError
            /\ ~ accepts 2 budget
            /\ status_codes
                 (trace (snd (do_POST PORT self
                                (fresh input broken mem budget))))
               = [200])).
Proof.
  intros PORT self input broken mem budget e. rewrite do_POST_run.
  assert (Hresp : forall received pre c,
            filter is_output pre = [] -> trace c = pre ->
            wfile_left c = budget ->
            fst (respond self (post_dict PORT self received) c) = inl e ->
            e <> UnicodeEncodeError
            /\ (filter is_output
                  (trace (snd (respond self (post_dict PORT self received) c)))
                = []
                \/ (e = OSError /\ ~ accepts 2 budget
                    /\ status_codes
                         (trace (snd (respond self
                                        (post_dict PORT self received) c)))
                       = [200]))).
  { intros received pre c Hpre Ht Hw He.
    destruct (respond_responded self (post_dict PORT self received) c)
      as [Hr _].
    rewrite Ht, Hw, He in Hr.
    destruct (responded_failure _ _ _ _ _ _ Hr) as [-> Hn].
    split; [discriminate|].
    remember (trace (snd (respond self (post_dict PORT self received) c)))
      as tr eqn:Etr.
    clear Etr.
    destruct (simple self) eqn:Hs.
    - left. inversion Hr; subst; try discriminate. assumption.
    - right. split; [reflexivity|]. split; [exact Hn|].
      exact (responded_status _ _ _ _ _ Hpre Hr). }
  destruct (int (headers_get self "Content-Length" (PyInt 0))) as [e0|n] eqn:En.
  - cbn [fst snd]. intros H. inversion H; subst e0.
    rewrite (int_header_error _ _ _ _ En).
    split; [discriminate|]. left. reflexivity.
  - destruct (n =? 0).
    + apply (Hresp false []); reflexivity.
    + destruct (rfile_read n (fresh input broken mem budget))
        as [[e1|data] c'] eqn:Er.
      * cbn [fst snd]. intros H. inversion H; subst e1.
        split.
        -- destruct (rfile_read_error _ _ _ _ Er) as [-> | [-> | [-> | ->]]];
             discriminate.
        -- left. apply rfile_read_quiet in Er. destruct Er as [Ht _].
           rewrite Ht. reflexivity.
      * apply rfile_read_data in Er.
        destruct Er as (_ & _ & _ & Hw & Ht). cbn [fresh trace wfile_left] in *.
        destruct (decode data) as [e2|text] eqn:Ed.
        -- cbn [fst snd]. intros H. inversion H; subst e2.
           rewrite (decode_only_unicode_error _ _ Ed).
           split; [discriminate|]. left. now rewrite Ht.
        -- apply (Hresp (str_truth text) [Read n data]);
             [reflexivity|exact Ht|exact Hw].
Qed.

Lemma post_failure_kinds_witness :
  fst (do_POST 8080 (submit "5") (fresh hello false 4096 (Some 1%nat)))
  = inl OSError
  /\ ~ accepts 2 (Some 1%nat)
  /\ status_codes
       (trace (snd (do_POST 8080 (submit "5")
                      (fresh hello false 4096 (Some 1%nat)))))
     = [200].
Proof.
  split; [reflexivity|].
  destruct (post_failure_kinds 8080 (submit "5") hello false 4096
              (Some 1%nat) OSError eq_refl) as [_ [H|(_ & Hn & Hc)]];
    [discriminate H|].
  split; [exact Hn|exact Hc].
Defined.

(* ----------------------------------------------------------------- *)

(** X7.  Every octet of every response body, of GET and POST alike,
    is a printable ASCII character (0x20 to 0x7E), whatever the request
    path holds: control characters, quotes and everything beyond ASCII
    reach the client as backslash escapes. *)
Theorem reply_body_printable :
  forall (PORT : Z) (cmd : command) (self : request) (input : bytes)
         (broken : bool) (mem : Z) (budget : option nat) (r : response),
    reply (handle PORT cmd self (fresh input broken mem budget)) = Some r ->
    Forall (fun b => 32 <= byte_val b <= 126) (body r).
Proof.
  intros PORT cmd self input broken mem budget r Hr.
  destruct (handled_reply _ _ _ _ _ _ _
              (handle_handled PORT cmd self input broken mem budget) Hr)
    as (_ & _ & [Hb|[Hb|[received Hb]]]); rewrite Hb.
  - constructor.
  - apply octets_printable, dumps_printable.
  - apply octets_printable, dumps_printable.
Qed.

Lemma reply_body_printable_witness :
  exists r,
    reply (handle 8080 GET
             {| path := String (Ascii.ascii_of_nat 233)
                          (String (Ascii.ascii_of_nat 10) "/x");
                headers := []; request_version := "HTTP/1.1" |}
             (fresh [] false 0 None)) = Some r
    /\ Forall (fun b => 32 <= byte_val b <= 126) (body r).
Proof.
  eexists. split; [reflexivity|].
  apply (reply_body_printable 8080 GET
           {| path := String (Ascii.ascii_of_nat 233)
                        (String (Ascii.ascii_of_nat 10) "/x");
              headers := []; request_version := "HTTP/1.1" |}
           [] false 0 None).
  reflexivity.
Defined.

(* ----------------------------------------------------------------- *)

(** X8.  Beside what the framework adds by itself, a reply carries
    one header and no other, the one the handler sets: Content-type:
    application/json; the reply to an HTTP/0.9 request carries none.
    In particular the handler never announces the length of the body
    it sends. *)
Theorem reply_headers :
  forall (PORT : Z) (cmd : command) (self : request) (input : bytes)
         (broken : bool) (mem : Z) (budget : option nat) (r : response),
    reply (handle PORT cmd self (fresh input broken mem budget)) = Some r ->
    response_headers r
    = (if simple self return list (str * str) then []
       else [(latin1 "Content-type", latin1 "application/json")])
    /\ header r "Content-Length" = None.
Proof.
  intros PORT cmd self input broken mem budget r Hr.
  destruct (handled_reply _ _ _ _ _ _ _
              (handle_handled PORT cmd self input broken mem budget) Hr)
    as (_ & Hh & _).
  split; [exact Hh|]. unfold header. rewrite Hh.
  destruct (simple self); reflexivity.
Qed.

Lemma reply_headers_witness :
  exists r,
    reply (handle 8080 POST (submit "5") (fresh hello false 4096 None))
    = Some r
    /\ response_headers r
       = [(latin1 "Content-type", latin1 "application/json")]
    /\ header r "Content-Length" = None.
Proof.
  eexists. split; [reflexivity|].
  apply (reply_headers 8080 POST (submit "5") hello false 4096 None).
  reflexivity.
Defined.

(* ----------------------------------------------------------------- *)

(** X10.  With [PORT] set to 0 the server listens on the port the
    system hands out, while the start line and the port field of every
    reply keep saying 0: what is reported is the configured value, not
    the port bound. *)
Theorem port_zero :
  forall (env : environ) (os : system) (conns : list incoming),
    PORT_of env = inr 0 ->
    port_free os 0 = true ->
    listening (main env os conns) = Some (ephemeral os)
    /\ stdout (main env os conns) = [latin1 "Starting server on 0.0.0.0:0"]
    /\ exists outs,
         served (main env os conns) = inr outs
         /\ Forall (fun out =>
                      forall r v, reply out = Some r ->
                                  field r "port" = Some v -> v = JInt 0)
                   outs.
Proof.
  intros env os conns HP Hfree. unfold main. rewrite HP.
  change (negb (between 0 0 65535)) with false. cbv iota.
  rewrite Hfree. cbn [negb listening stdout served].
  split; [reflexivity|]. split; [reflexivity|].
  eexists. split; [reflexivity|].
  induction conns as [|i conns IH]; cbn [serve_forever]; constructor;
    [|exact IH].
  unfold serve_one, reply.
  exact (proj1 (handled_port 0 (parsed i) (patience i) (method i) _ _
                  (handle_handled 0 (method i) (parsed i) (input i)
                     (broken i) (room i) (patience i)))).
Qed.

Lemma port_zero_witness :
  listening (main [("PORT", "0")%string]
               {| port_free := fun _ => true; ephemeral := 49152 |}
               [ {| method := GET; parsed := root; input := [];
                    broken := false; room := 4096; patience := None |} ])
  = Some 49152.
Proof.
  exact (proj1 (port_zero [("PORT", "0")%string]
                  {| port_free := fun _ => true; ephemeral := 49152 |}
                  [ {| method := GET; parsed := root; input := [];
                       broken := false; room := 4096; patience := None |} ]
                  eq_refl eq_refl)).
Defined.

(* ----------------------------------------------------------------- *)

(** X11.  [PORT] is read back as it is written: when the first PORT
    binding of the environment holds the decimal form of an integer
    [n], as [repr] writes it and of no more than 4300 characters, the
    program's [PORT] is [n]; and when [n] is a port of 1..65535 that is
    free, that is the port listened on. *)
Theorem port_written_in_decimal :
  forall (env : environ) (os : system) (conns : list incoming)
         (before after : environ) (v : string) (n : Z),
    env = before ++ ("PORT"%string, v) :: after ->
    (forall w, ~ In ("PORT"%string, w) before) ->
    latin1 v = int_repr n ->
    (List.length (int_repr n) <= int_max_str_digits)%nat ->
    PORT_of env = inr n
    /\ (0 < n <= 65535 -> port_free os n = true ->
        listening (main env os conns) = Some n).
Proof.
  intros env os conns before after v n -> Hfirst Hv Hlen.
  assert (HP : PORT_of (before ++ ("PORT"%string, v) :: after) = inr n).
  { unfold PORT_of. rewrite environ_get_present by exact Hfirst.
    cbn [int]. rewrite Hv. now apply int_of_str_repr. }
  split; [exact HP|].
  intros Hr Hfree. unfold main. rewrite HP. unfold between.
  replace (0 <=? n) with true by (symmetry; apply Z.leb_le; lia).
  replace (n <=? 65535) with true by (symmetry; apply Z.leb_le; lia).
  cbn [andb negb]. rewrite Hfree. cbn [negb listening].
  replace (n =? 0) with false by (symmetry; apply Z.eqb_neq; lia).
  reflexivity.
Qed.

Lemma port_written_in_decimal_witness :
  PORT_of [("HOME", "/root"); ("PORT", "8123")]%string = inr 8123.
Proof.
  exact (proj1 (port_written_in_decimal
                  [("HOME", "/root"); ("PORT", "8123")]%string
                  {| port_free := fun _ => true; ephemeral := 49152 |} []
                  [("HOME", "/root")%string] [] "8123" 8123 eq_refl
                  ltac:(intros w [H|[]]; discriminate H) eq_refl
                  ltac:(apply Nat.leb_le; reflexivity))).
Defined.

(* ----------------------------------------------------------------- *)



(* ----------------------------------------------------------------- *)



(* ----------------------------------------------------------------- *)



End Behaviour.

(* ================================================================= *)
(** * The scenarios of the specification, run *)

Module Scenarios.
Import Py Http Server Model.

(** [GET /] on port 8080: the body, octet for octet. *)
Example get_root :
  option_map body (reply (do_GET 8080 root (fresh [] false 4096 None)))
  = Some (map byte_of
            (quoted "{'status': 'healthy', 'port': 8080, 'method': 'GET', 'path': '/'}")).
Proof. reflexivity. Qed.

(** [GET /foo/bar?x=1]: the query string is part of the path. *)
Example get_with_query :
  match reply (do_GET 8080 {| path := "/foo/bar?x=1"; headers := [];
                                request_version := "HTTP/1.1" |}
                 (fresh [] false 4096 None)) with
  | Some r => field r "path"
  | None => None
  end = Some (JStr (latin1 "/foo/bar?x=1")).
Proof. reflexivity. Qed.

(** A target with a quote, a backslash and a character outside ASCII
    is escaped on the wire and read back as it was. *)
Example get_escaped :
  option_map body
    (reply (do_GET 8080 {| path := "/a'b\c" ++ String (ascii_of_nat 233) "";
                           headers := []; request_version := "HTTP/1.1" |} (fresh [] false 4096 None)))
  = Some (map byte_of
            (quoted "{'status': 'healthy', 'port': 8080, 'method': 'GET', 'path': '/a"
             ++ [39] ++ latin1 "b\\c\u00e9" ++ quoted "'}"))
  /\ match reply (do_GET 8080
                    {| path := "/a'b\c" ++ String (ascii_of_nat 233) "";
                       headers := []; request_version := "HTTP/1.1" |} (fresh [] false 4096 None)) with
     | Some r => field r "path"
     | None => None
     end = Some (JStr (latin1 "/a'b\c" ++ [233])).
Proof. split; reflexivity. Qed.

(** [POST /submit] with the body [hello], Content-Length 5. *)
Example post_hello :
  option_map body (reply (do_POST 8080 (submit "5") (fresh hello false 4096 None)))
  = Some (map byte_of
            (quoted "{'status': 'healthy', 'port': 8080, 'method': 'POST', 'path': '/submit', 'body_received': true}")).
Proof. reflexivity. Qed.

(** [POST /submit] with no body: Content-Length 0, or none. *)
Example post_nothing :
  match reply (do_POST 8080 (submit "0") (fresh [] false 4096 None)) with
  | Some r => field r "body_received"
  | None => None
  end = Some (JBool false)
  /\ match reply (do_POST 8080 {| path := "/submit"; headers := [];
                                   request_version := "HTTP/1.1" |}
                    (fresh hello false 4096 None)) with
     | Some r => field r "body_received"
     | None => None
     end = Some (JBool false).
Proof. split; reflexivity. Qed.

(** With PORT=9090 in the environment the socket listens on 9090 and
    the replies say so. *)
Example port_9090 :
  listening (main [("PORT", "9090")%string]
               {| port_free := fun _ => true; ephemeral := 49152 |} [])
  = Some 9090
  /\ stdout (main [("PORT", "9090")%string]
               {| port_free := fun _ => true; ephemeral := 49152 |} [])
     = [latin1 "Starting server on 0.0.0.0:9090"]
  /\ match reply (do_GET 9090 root (fresh [] false 4096 None)) with
     | Some r => field r "port"
     | None => None
     end = Some (JInt 9090).
Proof. repeat split; reflexivity. Qed.

(** A Content-Length larger than what the client sends before it
    closes: the handler gets what there is. *)
Example post_short_stream :
  reads (trace (snd (do_POST 8080 (submit "10") (fresh hello false 4096 None))))
  = [(10, hello)].
Proof. reflexivity. Qed.

(** Content-Length -1 reads to the end of the stream; any other
    negative length is refused by the read. *)
Example post_negative_length :
  reads (trace (snd (do_POST 8080 (submit "-1") (fresh hello false 4096 None))))
  = [(-1, hello)]
  /\ do_POST 8080 (submit "-5") (fresh hello false 4096 None)
     = (inl ValueError, fresh hello false 4096 None).
Proof. split; reflexivity. Qed.

(** The client resets the connection before it has sent what it
    announced; or announces more than the process can hold. *)
Example post_read_fails :
  do_POST 8080 (submit "10") (fresh hello true 4096 None)
  = (inl OSError, drained (fresh hello true 4096 None))
  /\ do_POST 8080 (submit "5000") (fresh hello false 4096 None)
     = (inl MemoryError, fresh hello false 4096 None)
  /\ do_POST 8080 (submit "9223372036854775774") (fresh hello false 4096 None)
     = (inl MemoryError, fresh hello false 4096 None)
  /\ do_POST 8080 (submit "9223372036854775775") (fresh hello false 4096 None)
     = (inl OverflowError, fresh hello false 4096 None).
Proof. repeat split; reflexivity. Qed.

(** Request lines, as the framework routes them. *)
Example request_lines :
  handle_one_request (line "GET / HTTP/1.1") [] = Call GET root
  /\ handle_one_request (line "GET /foo/bar?x=1 HTTP/1.0") []
     = Call GET {| path := "/foo/bar?x=1"; headers := [];
                   request_version := "HTTP/1.0" |}
  /\ handle_one_request (line "GET ///a//b HTTP/1.1") []
     = Call GET {| path := "/a//b"; headers := [];
                   request_version := "HTTP/1.1" |}
  /\ handle_one_request (line "POST /submit HTTP/0.9") []
     = Call POST {| path := "/submit"; headers := [];
                    request_version := "HTTP/0.9" |}
  /\ handle_one_request (line "GET /x HTTP/0.09") []
     = Call GET {| path := "/x"; headers := [];
                   request_version := "HTTP/0.09" |}
  /\ handle_one_request (line "GET /a b HTTP/1.1") [] = Refuse 400
  /\ handle_one_request (line "GET /x HTTP/1_0.1") [] = Refuse 505
  /\ handle_one_request (line "GET /x http/1.1") [] = Refuse 400
  /\ handle_one_request (line "get /x HTTP/1.1") [] = Refuse 501
  /\ handle_one_request (line "HEAD /x HTTP/1.1") [] = Refuse 501
  /\ handle_one_request (line "") [] = Silent.
Proof. repeat split; reflexivity. Qed.

(** A POST under HTTP/0.9: the body is the whole reply. *)
Example post_simple :
  reply (do_POST 8080
           {| path := "/submit"; headers := [("Content-Length", "5")%string];
              request_version := "HTTP/0.9" |}
           (fresh hello false 4096 None))
  = Some {| status := None; response_headers := [];
            body := map byte_of
                      (quoted "{'status': 'healthy', 'port': 8080, 'method': 'POST', 'path': '/submit', 'body_received': true}") |}.
Proof. reflexivity. Qed.

(** A peer that stops reading after the header block. *)
Example get_peer_gone :
  fst (do_GET 8080 root (fresh [] false 4096 (Some 1%nat))) = inl OSError
  /\ option_map body (reply (do_GET 8080 root (fresh [] false 4096 (Some 1%nat))))
     = Some [].
Proof. split; reflexivity. Qed.

(** What [int] takes and what it does not. *)
Example int_examples :
  int_of_str (latin1 "5") = inr 5
  /\ int_of_str (latin1 " +1_000 ") = inr 1000
  /\ int_of_str (latin1 "-1") = inr (-1)
  /\ int_of_str (latin1 "abc") = inl ValueError
  /\ int_of_str (latin1 "") = inl ValueError
  /\ int_of_str (latin1 "1__0") = inl ValueError
  /\ int_of_str (latin1 "12_") = inl ValueError
  /\ int_of_str (latin1 "0x10") = inl ValueError.
Proof. repeat split; reflexivity. Qed.

Example utf8_examples :
  decode [x68; x69] = inr [104; 105]
  /\ decode [xc3; xa9] = inr [233]
  /\ decode [xe2; x82; xac] = inr [0x20AC]
  /\ decode [xf0; x9f; x98; x80] = inr [0x1F600]
  /\ decode [xff] = inl UnicodeDecodeError
  /\ decode [xc0; x80] = inl UnicodeDecodeError
  /\ decode [xed; xa0; x80] = inl UnicodeDecodeError
  /\ encode [0x20AC; 0x1F600; 233]
     = inr [xe2; x82; xac; xf0; x9f; x98; x80; xc3; xa9]
  /\ encode [0xD800] = inl UnicodeEncodeError.
Proof. repeat split; reflexivity. Qed.

Example json_examples :
  dumps [] = latin1 "{}"
  /\ encode_basestring_ascii [233; 10; 34; 0x1F600; 127; 47]
     = [34] ++ latin1 "\u00e9\n\" ++ [34]
       ++ latin1 "\ud83d\ude00\u007f/" ++ [34]
  /\ loads (quoted " { 'a' : 'x\u00E9\ud83d\ude00\/' ,'b':-12, 'c':true } ")
     = Some [(latin1 "a", JStr [120; 233; 0x1F600; 47]);
             (latin1 "b", JInt (-12)); (latin1 "c", JBool true)]
  /\ loads (quoted "{'a': 012}") = None
  /\ loads (quoted "{'a': 1.5}") = None
  /\ loads (quoted "{'a': 1,}") = None
  /\ int_repr 0 = [48]
  /\ int_repr (-305) = latin1 "-305".
Proof. repeat split; vm_compute; reflexivity. Qed.

End Scenarios.
